(** * svod_rcgn: the recognition decision pipeline

    A shallow embedding of [svod_rcgn/recognize/video_notify.py] and of the
    classifier part of [svod_rcgn/recognize/detector.py], with the properties
    of the temporal debouncer, of the score fusion and of the classifier
    loader that the specification states.

    Numbers.  Python's [float] is IEEE 754 binary64, and so is Rocq's
    primitive [float]: every arithmetic operation and comparison below is the
    one the interpreter performs.  Python's [int] is [Z]; where an [int]
    meets a [float] it is converted with [float_of_Z], which is exact below
    2^53 in absolute value.  The integers [0] and [1] that [max] and [min]
    may hand back are taken at their float value. *)

From Stdlib Require Import List ZArith Bool String Lia Floats Uint63 DecimalString Sorted.
Import ListNotations.

Set Implicit Arguments.

(* Decimal literals such as 0.4 denote the nearest double, as in Python. *)
Set Warnings "-inexact-float".

(** ** Python exceptions and results *)

Inductive exn : Type :=
| ValueError
| IndexError
| TypeError
| ZeroDivisionError
| AttributeError
| RuntimeError (msg : string).

Inductive result (A : Type) : Type :=
| Ok (a : A)
| Raise (e : exn).

Arguments Ok {A} a.
Arguments Raise {A} e.

Definition bind {A B : Type} (r : result A) (k : A -> result B) : result B :=
  match r with
  | Ok a => k a
  | Raise e => Raise e
  end.

Declare Scope py_scope.
Delimit Scope py_scope with py.
Notation "x <- r ;; k" := (bind r (fun x => k))
  (at level 61, r at next level, right associativity) : py_scope.
Notation "' p <- r ;; k" := (bind r (fun x => let p := x in k))
  (at level 61, p pattern, r at next level, right associativity) : py_scope.

(** ** Numbers shared by both modules *)

Definition float_of_Z (z : Z) : float :=
  match z with
  | Z0 => 0%float
  | Zpos _ => PrimFloat.of_uint63 (Uint63.of_Z z)
  | Zneg p => (- PrimFloat.of_uint63 (Uint63.of_Z (Zpos p)))%float
  end.

(** [a > b] on Python floats. *)
Definition gtb (a b : float) : bool := (b <? a)%float.

Arguments gtb : simpl never.

(** [max(a, b)] of Python: the first argument unless the second is greater. *)
Definition py_max (a b : float) : float := if gtb b a then b else a.

(** [min(a, b)] of Python: the first argument unless the second is smaller. *)
Definition py_min (a b : float) : float := if (b <? a)%float then b else a.

(** [sum(xs)] on integers. *)
Definition sum_Z (xs : list Z) : Z := fold_left Z.add xs 0%Z.

(** [sum(xs)] on floats: left to right, starting from the integer 0. *)
Definition sum_float (xs : list float) : float :=
  fold_left PrimFloat.add xs 0%float.

(** ** Frames, boxes and images *)

(** A frame is known by its position in the stream; its pixels are read only
    by the external detector, embedder and renderer. *)
Inductive Frame : Type := frame_id (n : nat).

(** One row of the detector's output: left, top, right, bottom, in pixels. *)
Record BBox : Type := {
  bbox_left : float;
  bbox_top : float;
  bbox_right : float;
  bbox_bottom : float
}.

(** Modelled from the spec: [svod_rcgn.tools.images] is not among the sources;
    [crop_by_box frame bbox] stands for the snapshot it cuts out of [frame]. *)
Inductive Image : Type := crop_by_box (frame : Frame) (bbox : BBox).

(** * video_notify.py *)

Module VideoNotify.

(** The attributes of the class object [InVideoDetected].  [class_prob] is
    the class attribute [prob], which exists only once
    [init_in_video_detected] has assigned it. *)
Record InVideoDetectedClass : Type := {
  notify_period : Z;
  notify_prob : float;
  stay_notified : float;
  class_prob : option float
}.

Definition InVideoDetected_class : InVideoDetectedClass :=
  {| notify_period := 3;
     notify_prob := 0.5;
     stay_notified := 120;
     class_prob := None |}.

(** The instance attributes set by [__init__]. *)
Record InVideoDetected : Type := {
  done : bool;
  prob : float;
  not_detected_anymore : bool;
  in_frames : list Z;
  in_frames_ts : list float;
  notified_awaiting : bool;
  notified : bool;
  notified_ts : option float;
  looks_like : list string;
  image : option Image
}.

Definition init : InVideoDetected :=
  {| done := false;
     prob := 0;
     not_detected_anymore := false;
     in_frames := [];
     in_frames_ts := [];
     notified_awaiting := false;
     notified := false;
     notified_ts := None;
     looks_like := [];
     image := None |}.

(** The verdict handed to [exists_in_frame]; its class lives outside the
    sources, the three attributes are the ones the method reads. *)
Record Processed : Type := {
  processed_looks_like : list string;
  processed_prob : option float;
  processed_bbox : BBox
}.

Definition set_done (b : bool) (s : InVideoDetected) : InVideoDetected :=
  {| done := b; prob := prob s; not_detected_anymore := not_detected_anymore s;
     in_frames := in_frames s; in_frames_ts := in_frames_ts s;
     notified_awaiting := notified_awaiting s; notified := notified s;
     notified_ts := notified_ts s; looks_like := looks_like s;
     image := image s |}.

Definition prepare (s : InVideoDetected) : InVideoDetected := set_done false s.

Definition set_window (fr : list Z) (ts : list float) (s : InVideoDetected)
  : InVideoDetected :=
  {| done := done s; prob := prob s; not_detected_anymore := not_detected_anymore s;
     in_frames := fr; in_frames_ts := ts;
     notified_awaiting := notified_awaiting s; notified := notified s;
     notified_ts := notified_ts s; looks_like := looks_like s;
     image := image s |}.

Definition set_prob (p : float) (s : InVideoDetected) : InVideoDetected :=
  {| done := done s; prob := p; not_detected_anymore := not_detected_anymore s;
     in_frames := in_frames s; in_frames_ts := in_frames_ts s;
     notified_awaiting := notified_awaiting s; notified := notified s;
     notified_ts := notified_ts s; looks_like := looks_like s;
     image := image s |}.

Definition set_notified (n aw : bool) (ts : option float) (s : InVideoDetected)
  : InVideoDetected :=
  {| done := done s; prob := prob s; not_detected_anymore := not_detected_anymore s;
     in_frames := in_frames s; in_frames_ts := in_frames_ts s;
     notified_awaiting := aw; notified := n;
     notified_ts := ts; looks_like := looks_like s;
     image := image s |}.

Definition set_not_detected_anymore (b : bool) (s : InVideoDetected)
  : InVideoDetected :=
  {| done := done s; prob := prob s; not_detected_anymore := b;
     in_frames := in_frames s; in_frames_ts := in_frames_ts s;
     notified_awaiting := notified_awaiting s; notified := notified s;
     notified_ts := notified_ts s; looks_like := looks_like s;
     image := image s |}.

Definition set_looks_like (l : list string) (s : InVideoDetected)
  : InVideoDetected :=
  {| done := done s; prob := prob s; not_detected_anymore := not_detected_anymore s;
     in_frames := in_frames s; in_frames_ts := in_frames_ts s;
     notified_awaiting := notified_awaiting s; notified := notified s;
     notified_ts := notified_ts s; looks_like := l;
     image := image s |}.

Definition set_best (p : float) (img : Image) (s : InVideoDetected)
  : InVideoDetected :=
  {| done := done s; prob := p; not_detected_anymore := not_detected_anymore s;
     in_frames := in_frames s; in_frames_ts := in_frames_ts s;
     notified_awaiting := notified_awaiting s; notified := notified s;
     notified_ts := notified_ts s; looks_like := looks_like s;
     image := Some img |}.

(** The [while] loop of [exists_in_frame]: as long as more than one
    timestamp is left and the oldest is more than [notify_period] behind
    [now], the oldest sample leaves both lists and [period_filled] is raised.
    [del self.in_frames[0]] raises on an empty list. *)
Fixpoint prune (period : Z) (now : float) (fr : list Z) (ts : list float)
  (period_filled : bool) {struct ts} : result (list Z * list float * bool) :=
  match ts with
  | t0 :: rest =>
      match rest with
      | _ :: _ =>
          if gtb (now - t0)%float (float_of_Z period) then
            match fr with
            | _ :: fr' => prune period now fr' rest true
            | [] => Raise IndexError
            end
          else Ok (fr, ts, period_filled)
      | [] => Ok (fr, ts, period_filled)
      end
  | [] => Ok (fr, ts, period_filled)
  end.

(** [sum(self.in_frames) / len(self.in_frames)]. *)
Definition window_mean (fr : list Z) : result float :=
  match fr with
  | [] => Raise ZeroDivisionError
  | _ => Ok (float_of_Z (sum_Z fr) / float_of_Z (Z.of_nat (List.length fr)))%float
  end.

(** The body of [if period_filled:]. *)
Definition recompute (cls : InVideoDetectedClass) (now : float)
  (s : InVideoDetected) : result InVideoDetected :=
  (m <- window_mean (in_frames s) ;;
   let s1 := set_prob m s in
   s2 <- (if notified s1 then
            match notified_ts s1 with
            | Some t =>
                if gtb (now - t)%float (stay_notified cls)
                then Ok (set_notified false (notified_awaiting s1) None s1)
                else Ok s1
            | None => Raise TypeError
            end
          else Ok s1) ;;
   let s3 := if gtb (prob s2) (notify_prob cls) && negb (notified s2)
             then set_notified true true (Some now) s2
             else s2 in
   Ok (if (prob s3 =? 0)%float then set_not_detected_anymore true s3 else s3))%py.

(** [list(set(xs))] followed by [sort()]: the distinct strings in increasing
    order (strings compare character by character). *)
Fixpoint insert_uniq (x : string) (l : list string) : list string :=
  match l with
  | [] => [x]
  | y :: l' =>
      match String.compare x y with
      | Lt => x :: l
      | Eq => l
      | Gt => y :: insert_uniq x l'
      end
  end.

Definition sorted_set (l : list string) : list string :=
  fold_right insert_uniq [] l.

(** The body of [if processed:]. *)
Definition absorb (p : Processed) (frame : option Frame) (s : InVideoDetected)
  : InVideoDetected :=
  let s1 := match processed_looks_like p with
            | [] => s
            | _ :: _ => set_looks_like (sorted_set (looks_like s ++ processed_looks_like p)) s
            end in
  match processed_prob p, frame with
  | Some c, Some f =>
      if gtb c (prob s1) then set_best c (crop_by_box f (processed_bbox p)) s1
      else s1
  | _, _ => s1
  end.

(** [exists_in_frame(processed, frame)], with the reading [now] of the clock
    as an argument. *)
Definition exists_in_frame (cls : InVideoDetectedClass) (s : InVideoDetected)
  (processed : option Processed) (frame : option Frame) (now : float)
  : result InVideoDetected :=
  if done s then Ok s else
  let bit := match processed with Some _ => 1%Z | None => 0%Z end in
  ('(fr, ts, period_filled) <-
     prune (notify_period cls) now (in_frames s ++ [bit]) (in_frames_ts s ++ [now]) false ;;
   let s1 := set_window fr ts s in
   s2 <- (if period_filled : bool then recompute cls now s1 else Ok s1) ;;
   let s3 := match processed with
             | Some p => absorb p frame s2
             | None => s2
             end in
   Ok (set_done true s3))%py.

Definition make_notify (s : InVideoDetected) : bool * InVideoDetected :=
  if notified s && notified_awaiting s
  then (true, set_notified (notified s) false (notified_ts s) s)
  else (false, s).

(** The command-line values read by [init_in_video_detected]. *)
Record Args : Type := {
  notify_face_detection_period : Z;
  notify_face_detection_prob : float;
  notify_face_detection_stay : float
}.

(** [init_in_video_detected]: three assignments to class attributes; the
    second one goes to [prob], not to [notify_prob]. *)
Definition init_in_video_detected (args : Args) (cls : InVideoDetectedClass)
  : InVideoDetectedClass :=
  {| notify_period := notify_face_detection_period args;
     notify_prob := notify_prob cls;
     stay_notified := notify_face_detection_stay args;
     class_prob := Some (notify_face_detection_prob args) |}.

(** The defaults that [add_video_notify_args] gives the three options. *)
Definition default_args (cls : InVideoDetectedClass) : Args :=
  {| notify_face_detection_period := notify_period cls;
     notify_face_detection_prob := notify_prob cls;
     notify_face_detection_stay := stay_notified cls |}.

(** A stream of calls on one instance, and the values [make_notify] returned
    along it. *)
Inductive Call : Type :=
| CallPrepare
| CallExistsInFrame (processed : option Processed) (frame : option Frame) (now : float)
| CallMakeNotify.

Fixpoint run (cls : InVideoDetectedClass) (s : InVideoDetected) (calls : list Call)
  : result (list bool * InVideoDetected) :=
  match calls with
  | [] => Ok ([], s)
  | CallPrepare :: rest => run cls (prepare s) rest
  | CallExistsInFrame p f now :: rest =>
      (s' <- exists_in_frame cls s p f now ;; run cls s' rest)%py
  | CallMakeNotify :: rest =>
      let '(b, s') := make_notify s in
      ('(bs, s'') <- run cls s' rest ;; Ok (b :: bs, s''))%py
  end.

End VideoNotify.

(** * detector.py *)

Module Detector.

(** The runtime type that [isinstance] inspects. *)
Inductive ClassifierType : Type :=
| SVC
| KNeighborsClassifier
| OtherType (name : string).

(** A deserialised model.  The methods of scikit-learn are functions of the
    record: [predict_proba] takes the embedding as one row and returns one
    row of class probabilities, [kneighbors output n] the distances and the
    training indices of the [n] nearest neighbours in increasing distance.
    [n_features] is [shape_fit_[1]] of an SVC and [_fit_X.shape[1]] of a kNN
    model; [_y] holds the class of each training sample. *)
Record Classifier : Type := {
  clf_type : ClassifierType;
  n_features : nat;
  n_neighbors : Z;
  predict_proba : list float -> result (list float);
  kneighbors : list float -> Z -> result (list float * list nat);
  _y : list nat
}.

(** One entry of [class_stats]; the code reads its ['embeddings'] count. *)
Record ClassStat : Type := { embeddings : Z }.

Record DetectorClassifiers : Type := {
  classifiers : list Classifier;
  classifier_names : list string;
  embedding_sizes : list nat;
  class_names : option (list string);
  class_stats : option (list ClassStat)
}.

(** [DetectorClassifiers()] *)
Definition new_classifiers : DetectorClassifiers :=
  {| classifiers := [];
     classifier_names := [];
     embedding_sizes := [];
     class_names := None;
     class_stats := None |}.

(** The attributes of a [Detector] that the classifier code reads or writes;
    [self_classifiers] is [self.classifiers]. *)
Record Detector : Type := {
  model_dir : option string;
  classifiers_dir : string;
  use_classifiers : bool;
  self_classifiers : DetectorClassifiers;
  threshold : float;
  debug : bool
}.

(** What one [.pkl] file unpickles to. *)
Record Artifact : Type := {
  artifact_clf : Classifier;
  artifact_class_names : list string;
  artifact_class_stats : list ClassStat
}.

(** ** load_classifiers *)

(** ['%d' % n] *)
Definition format_d (z : Z) : string := NilZero.string_of_int (Z.to_int z).

Definition class_stat_eq_dec (a b : ClassStat) : {a = b} + {a <> b}.
Proof.
  destruct a as [x], b as [y].
  destruct (Z.eq_dec x y) as [e | n].
  - left. now rewrite e.
  - right. intro H. apply n. now inversion H.
Defined.

(** [bool(x)] for a string or [None]. *)
Definition truthy (x : option string) : bool :=
  match x with
  | None => false
  | Some s => negb (String.eqb s "")
  end.

(** The [isinstance] chain of the loader: embedding size and display name. *)
Definition describe (clfi : nat) (clf : Classifier) : nat * string :=
  match clf_type clf with
  | SVC => (n_features clf, "SVM"%string)
  | KNeighborsClassifier => (n_features clf, "kNN"%string)
  | OtherType _ => (512, format_d (Z.of_nat clfi))
  end.

(** One turn of the loop over the files found. *)
Definition load_one (clfi : nat) (a : Artifact) (new : DetectorClassifiers)
  : result DetectorClassifiers :=
  let '(embedding_size, classifier_name) := describe clfi (artifact_clf a) in
  (names <- match class_names new with
            | None => Ok (artifact_class_names a)
            | Some names =>
                if list_eq_dec string_dec (artifact_class_names a) names
                then Ok names
                else Raise (RuntimeError "Different class names in classifiers")
            end ;;
   stats <- match class_stats new with
            | None => Ok (artifact_class_stats a)
            | Some stats =>
                if list_eq_dec class_stat_eq_dec (artifact_class_stats a) stats
                then Ok stats
                else Raise (RuntimeError "Different class stats in classifiers")
            end ;;
   Ok {| classifiers := classifiers new ++ [artifact_clf a];
         classifier_names := classifier_names new ++ [classifier_name];
         embedding_sizes := embedding_sizes new ++ [embedding_size];
         class_names := Some names;
         class_stats := Some stats |})%py.

Fixpoint load_loop (clfi : nat) (found : list Artifact) (new : DetectorClassifiers)
  : result DetectorClassifiers :=
  match found with
  | [] => Ok new
  | a :: rest => (new' <- load_one clfi a new ;; load_loop (S clfi) rest new')%py
  end.

Definition set_use_classifiers (b : bool) (self : Detector) : Detector :=
  {| model_dir := model_dir self; classifiers_dir := classifiers_dir self;
     use_classifiers := b; self_classifiers := self_classifiers self;
     threshold := threshold self; debug := debug self |}.

Definition set_classifiers (c : DetectorClassifiers) (self : Detector) : Detector :=
  {| model_dir := model_dir self; classifiers_dir := classifiers_dir self;
     use_classifiers := use_classifiers self; self_classifiers := c;
     threshold := threshold self; debug := debug self |}.

(** [load_classifiers], with the unpickled contents [found] of the files
    that [glob] lists, in its order.  The detector is returned as the call
    leaves it, also when the call raises. *)
Definition load_classifiers (self : Detector) (found : list Artifact)
  : result unit * Detector :=
  if negb (truthy (model_dir self)) then (Ok tt, self) else
  let self1 := set_use_classifiers false self in
  match found with
  | [] => (Ok tt, self1)
  | _ :: _ =>
      match load_loop 0 found new_classifiers with
      | Ok new => (Ok tt, set_use_classifiers true (set_classifiers new self1))
      | Raise e => (Raise e, self1)
      end
  end.

(** ** process_output *)

(** The two number formats of the debug lines, ['%.1f'] and ['%.3f'].
    Python's rendering of a float in decimal is not modelled. *)
Record Printf : Type := {
  format_1f : float -> string;
  format_3f : float -> string
}.

(** [x.astype(int)] on one coordinate: truncation towards zero; values that
    do not fit 64 bits, infinities and NaN come out as -2^63, as the
    conversion instruction of x86-64 leaves them. *)
Definition astype_int (x : float) : Z :=
  match Prim2SF x with
  | S754_zero _ => 0
  | S754_finite s m e =>
      let a := Z.shiftl (Zpos m) e in
      let v := if s then (- a)%Z else a in
      if ((- 2 ^ 63 <=? v) && (v <? 2 ^ 63))%Z then v else (- 2 ^ 63)%Z
  | _ => (- 2 ^ 63)%Z
  end.

Definition Color : Type := (Z * Z * Z)%type.

(** The dictionary [bounding_boxes_overlay]. *)
Record Overlay : Type := {
  bb : Z * Z * Z * Z;
  thin : bool;
  color : Color
}.

(** The dictionary [overlay_label]. *)
Record Label : Type := {
  label : string;
  left : Z;
  top : Z;
  right : Z;
  bottom : Z;
  label_color : Color
}.

(** [l[i]] *)
Definition py_index {A : Type} (l : list A) (i : nat) : result A :=
  match nth_error l i with
  | Some a => Ok a
  | None => Raise IndexError
  end.

(** [l[i]] where [l] may be [None]. *)
Definition py_index_opt {A : Type} (l : option (list A)) (i : nat) : result A :=
  match l with
  | Some l' => py_index l' i
  | None => Raise TypeError
  end.

(** [np.argmax] on one row of doubles: the first position that is not
    below-or-equal the running maximum takes over, and a NaN ends the scan. *)
Fixpoint argmax_loop (mp : float) (max_ind i : nat) (ip : list float) : nat :=
  match ip with
  | [] => max_ind
  | x :: ip' =>
      if negb (x <=? mp)%float then
        if is_nan x then i else argmax_loop x i (S i) ip'
      else argmax_loop mp max_ind (S i) ip'
  end.

Definition argmax (row : list float) : result nat :=
  match row with
  | [] => Raise ValueError
  | x :: ip => Ok (if is_nan x then 0 else argmax_loop x 0 1 ip)
  end.

(** [max(0, min(1, x))] *)
Definition clamp01 (x : float) : float := py_max 0 (py_min 1 x).

(** The loop that counts [first_cnt]: neighbours of the predicted class up
    to the first one of another class. *)
Fixpoint first_cnt_loop (y : list nat) (best : nat) (neighbors_indices : list nat)
  (first_cnt : Z) : result Z :=
  match neighbors_indices with
  | [] => Ok first_cnt
  | i :: rest =>
      (c <- py_index y i ;;
       if Nat.eqb c best then first_cnt_loop y best rest (first_cnt + 1)%Z
       else Ok first_cnt)%py
  end.

(** The expression assigned to [prob] in the kNN branch. *)
Definition knn_prob (first_cnt cnt : Z) (d : float) : result float :=
  if (cnt =? 0)%Z then Raise ZeroDivisionError
  else Ok (clamp01 (float_of_Z (2 * first_cnt) / float_of_Z cnt - 0.5)
           * clamp01 (2.5 - d * 3))%float.

(** The expression returned as probability in the SVM branch. *)
Definition svm_prob (p : float) : float := clamp01 (p * 10)%float.

Section ProcessOutput.

Variable fmt : Printf.

(** [process_index] of the kNN branch (the inner index is always 0: there
    is one row). *)
Definition process_index_knn (cs : DetectorClassifiers) (clf : Classifier)
  (output : list float) (best : nat) : result (float * string) :=
  (stat <- py_index_opt (class_stats cs) best ;;
   let cnt := embeddings stat in
   '(closest_distances, neighbors_indices) <- kneighbors clf output cnt ;;
   d <- py_index closest_distances 0 ;;
   first_cnt <- first_cnt_loop (_y clf) best neighbors_indices 0 ;;
   prob <- knn_prob first_cnt cnt d ;;
   Ok (prob,
       (format_3f fmt d ++ " " ++ format_d first_cnt ++ "/" ++ format_d cnt)%string))%py.

(** [process_index] of the SVM branch. *)
Definition process_index_svm (predictions : list float) (best : nat)
  : result (float * string) :=
  (p <- py_index predictions best ;;
   Ok (svm_prob p, (format_1f fmt (p * 100)%float ++ "%")%string))%py.

(** The variables that the loop over the classifiers of [process_output]
    updates. *)
Record Acc : Type := {
  detected_indices : list nat;
  label_strings : list string;
  probs : list float;
  prob_detected : bool;
  summary_overlay_label : string
}.

Definition start : Acc :=
  {| detected_indices := [];
     label_strings := [];
     probs := [];
     prob_detected := true;
     summary_overlay_label := "" |}.

(** The part of the loop body after the [isinstance] chain, for a model of
    a supported type. *)
Definition contribute (cs : DetectorClassifiers) (dbg : bool) (clfi : nat)
  (best : nat) (process_index : result (float * string)) (acc : Acc)
  : result Acc :=
  (overlay_label <- py_index_opt (class_names cs) best ;;
   '(prob, label_debug) <- process_index ;;
   classifier_name <- py_index (classifier_names cs) clfi ;;
   let label_debug_info :=
     (classifier_name ++ ": " ++ format_1f fmt (prob * 100)%float ++ "% "
        ++ overlay_label ++ " (" ++ label_debug ++ ")")%string in
   Ok {| detected_indices := detected_indices acc ++ [best];
         label_strings :=
           if dbg then label_strings acc ++ [label_debug_info]
           else match label_strings acc with
                | [] => [overlay_label]
                | _ :: _ => label_strings acc
                end;
         probs := probs acc ++ [prob];
         prob_detected := if (prob <=? 0)%float then false else prob_detected acc;
         summary_overlay_label := overlay_label |})%py.

(** One turn of the loop over the classifiers. *)
Definition score_classifier (cs : DetectorClassifiers) (dbg : bool)
  (output : list float) (clfi : nat) (clf : Classifier) (acc : Acc)
  : result Acc :=
  (size <- py_index (embedding_sizes cs) clfi ;;
   match (if Nat.eqb (List.length output) size
          then predict_proba clf output
          else Raise ValueError) with
   | Raise ValueError => Ok acc
   | Raise e => Raise e
   | Ok predictions =>
       best <- argmax predictions ;;
       match clf_type clf with
       | KNeighborsClassifier =>
           contribute cs dbg clfi best (process_index_knn cs clf output best) acc
       | SVC =>
           contribute cs dbg clfi best (process_index_svm predictions best) acc
       | OtherType _ => Ok acc
       end
   end)%py.

Fixpoint score_loop (cs : DetectorClassifiers) (dbg : bool) (output : list float)
  (clfi : nat) (clfs : list Classifier) (acc : Acc) : result Acc :=
  match clfs with
  | [] => Ok acc
  | clf :: rest =>
      (acc' <- score_classifier cs dbg output clfi clf acc ;;
       score_loop cs dbg output (S clfi) rest acc')%py
  end.

(** [len(set(detected_indices)) == 1 and prob_detected] *)
Definition verdict (acc : Acc) : bool :=
  Nat.eqb (List.length (nodup Nat.eq_dec (detected_indices acc))) 1
  && prob_detected acc.

(** [sum(probs) / len(probs) if detected else 0] *)
Definition fused (acc : Acc) : float :=
  if verdict acc
  then (sum_float (probs acc) / float_of_Z (Z.of_nat (List.length (probs acc))))%float
  else 0%float.

Definition newline : string := String (Ascii.ascii_of_nat 10) EmptyString.

(** [label_strings] after the loop: debug mode appends its summary line. *)
Definition with_summary (dbg : bool) (acc : Acc) : list string :=
  if dbg then
    if verdict acc
    then label_strings acc
           ++ [("Summary: " ++ format_1f fmt (fused acc * 100)%float ++ "% "
                  ++ summary_overlay_label acc)%string]
    else label_strings acc ++ ["Summary: not detected"%string]
  else label_strings acc.

(** The assignments to [overlay_label_str]. *)
Definition label_text (dbg detected : bool) (lines : list string) : result string :=
  if dbg then
    match lines with
    | [] => Ok ""%string
    | _ :: _ => Ok (String.concat newline lines)
    end
  else if detected then py_index lines 0
  else Ok ""%string.

Definition process_output (self : Detector) (output : list float) (bbox : BBox)
  : result (Overlay * option Label * float) :=
  let cs := self_classifiers self in
  (acc <- score_loop cs (debug self) output 0 (classifiers cs) start ;;
   let detected := verdict acc in
   let mean_prob := fused acc in
   let thin_ := negb detected in
   let color_ := if thin_ then (0, 0, 255)%Z else (0, 255, 0)%Z in
   let bb_ := (astype_int (bbox_left bbox), astype_int (bbox_top bbox),
               astype_int (bbox_right bbox), astype_int (bbox_bottom bbox)) in
   overlay_label_str <-
     label_text (debug self) detected (with_summary (debug self) acc) ;;
   let overlay_label :=
     if String.eqb overlay_label_str "" then None
     else Some {| label := overlay_label_str;
                  left := astype_int (bbox_left bbox);
                  top := astype_int (bbox_top bbox);
                  right := astype_int (bbox_right bbox);
                  bottom := astype_int (bbox_bottom bbox);
                  label_color := color_ |} in
   Ok ({| bb := bb_; thin := thin_; color := color_ |}, overlay_label, mean_prob))%py.

(** ** process_frame *)

(** The collaborators of [process_frame]: the face detector behind
    [detect_faces], [images.get_images] and the embedding network. *)
Record Externals : Type := {
  detect_faces : Frame -> float -> list BBox;
  get_images : Frame -> list BBox -> list Image;
  inference_facenet : Image -> list float
}.

Fixpoint faces_loop (ext : Externals) (self : Detector)
  (bounding_boxes_detected : list BBox) (img_idx : nat) (imgs : list Image)
  (bounding_boxes_overlays : list Overlay) (labels : list Label)
  : result (list Overlay * list Label) :=
  match imgs with
  | [] => Ok (bounding_boxes_overlays, labels)
  | img :: rest =>
      let output := inference_facenet ext img in
      (bbox <- py_index bounding_boxes_detected img_idx ;;
       '(face_overlay, face_label, _) <- process_output self output bbox ;;
       faces_loop ext self bounding_boxes_detected (S img_idx) rest
         (bounding_boxes_overlays ++ [face_overlay])
         (match face_label with
          | Some l => labels ++ [l]
          | None => labels
          end))%py
  end.

(** [process_frame]; drawing the overlays on the frame is the renderer's
    business, the returned pair is what the caller gets. *)
Definition process_frame (ext : Externals) (self : Detector) (frame : Frame)
  : result (list Overlay * list Label) :=
  let bounding_boxes_detected := detect_faces ext frame (threshold self) in
  if use_classifiers self then
    faces_loop ext self bounding_boxes_detected 0
      (get_images ext frame bounding_boxes_detected) [] []
  else Ok ([], []).

End ProcessOutput.

End Detector.

(** * Vocabulary of the statements *)

Module VideoNotifySpec.
Import VideoNotify.

(** The two window lists have one length, and a notified instance carries
    the time of its notification: what [__init__] establishes and every
    method keeps. *)
Definition consistent (s : InVideoDetected) : Prop :=
  List.length (in_frames s) = List.length (in_frames_ts s)
  /\ (notified s = true -> notified_ts s <> None).

(** A call made while the test [now - notified_ts > stay_notified] of the
    code is still false for a notification raised at [t0]. *)
Definition within_stay (cls : InVideoDetectedClass) (t0 : float) (c : Call) : Prop :=
  match c with
  | CallExistsInFrame _ _ now => gtb (now - t0)%float (stay_notified cls) = false
  | _ => True
  end.

(** How often [make_notify] is called in a stream. *)
Fixpoint polls (calls : list Call) : nat :=
  match calls with
  | [] => 0
  | CallMakeNotify :: rest => S (polls rest)
  | _ :: rest => polls rest
  end.

(** [n] answers of which the first, and only the first, is [True]. *)
Definition single_shot (n : nat) : list bool :=
  match n with
  | 0 => []
  | S k => true :: repeat false k
  end.

(** The value the last [if] of [exists_in_frame] leaves in [prob] when it
    finds [m] there. *)
Definition best_seen (m : float) (processed : option Processed)
  (frame : option Frame) : float :=
  match processed, frame with
  | Some p, Some _ =>
      match processed_prob p with
      | Some c => if gtb c m then c else m
      | None => m
      end
  | _, _ => m
  end.

(** The three fields that decide about notifications. *)
Definition notification_state (s : InVideoDetected) : bool * bool * option float :=
  (notified s, notified_awaiting s, notified_ts s).

(** What the body of [if period_filled:] does to these three fields, given
    the mean [m] of the window. *)
Definition renotify (cls : InVideoDetectedClass) (now m : float)
  (st : bool * bool * option float) : bool * bool * option float :=
  let '(n, aw, ts) := st in
  let expired :=
    n && match ts with
         | Some t => gtb (now - t)%float (stay_notified cls)
         | None => false
         end in
  if gtb m (notify_prob cls) && negb (n && negb expired)
  then (true, true, Some now)
  else (n && negb expired, aw, if expired then None else ts).

(** The presence bit that a call appends. *)
Definition bit (p : option Processed) : Z :=
  match p with
  | Some _ => 1%Z
  | None => 0%Z
  end.

(** The value found in [prob] by the last [if] of a call that takes [s] to
    [s']: the mean of the window if the call pruned it, the stored value
    otherwise. *)
Definition held (s s' : InVideoDetected) : float :=
  if Nat.leb (List.length (in_frames s')) (List.length (in_frames s))
  then (float_of_Z (sum_Z (in_frames s'))
        / float_of_Z (Z.of_nat (List.length (in_frames s'))))%float
  else prob s.

End VideoNotifySpec.

Module DetectorSpec.
Import Detector.

(** A float that is a number: not NaN. *)
Definition number (x : float) : Prop := Prim2SF x <> S754_nan.

(** A float that is finite and zero or positive. *)
Definition finite_nonneg (x : float) : Prop :=
  match Prim2SF x with
  | S754_zero _ => True
  | S754_finite s _ _ => s = false
  | _ => False
  end.

(** Every contributing classifier predicted the same class index. *)
Definition same_class (idxs : list nat) : Prop :=
  forall i j, In i idxs -> In j idxs -> i = j.

(** Strictly greater than 0. *)
Definition positive (p : float) : Prop := gtb p 0 = true.

(** The arithmetic mean [(p1 + ... + pn) / n] of a list of probabilities,
    added up in the order of the list, in doubles. *)
Definition arithmetic_mean (ps : list float) : float :=
  match ps with
  | [] => 0%float
  | p :: rest =>
      (fold_left PrimFloat.add rest p / float_of_Z (Z.of_nat (List.length ps)))%float
  end.

(** The classes of the neighbours, in the order [kneighbors] returns them. *)
Definition neighbor_classes (y : list nat) (neighbors_indices : list nat) : list nat :=
  map (fun i => nth i y 0) neighbors_indices.

(** The leading run: how many neighbours belong to class [best] before the
    first neighbour of another class. *)
Fixpoint first_run (best : nat) (classes : list nat) : nat :=
  match classes with
  | c :: rest => if Nat.eqb c best then S (first_run best rest) else 0
  | [] => 0
  end.

(** An artifact whose label space differs from that of [a0]. *)
Definition disagrees (a0 a : Artifact) : Prop :=
  artifact_class_names a <> artifact_class_names a0
  \/ artifact_class_stats a <> artifact_class_stats a0.

(** A list without its entry [i]. *)
Fixpoint remove_nth {A : Type} (i : nat) (l : list A) {struct l} : list A :=
  match l with
  | [] => []
  | x :: l' =>
      match i with
      | 0 => l'
      | S i' => x :: remove_nth i' l'
      end
  end.

(** The ensemble without classifier [i]. *)
Definition without (i : nat) (cs : DetectorClassifiers) : DetectorClassifiers :=
  {| classifiers := remove_nth i (classifiers cs);
     classifier_names := remove_nth i (classifier_names cs);
     embedding_sizes := remove_nth i (embedding_sizes cs);
     class_names := class_names cs;
     class_stats := class_stats cs |}.

Definition without_classifier (i : nat) (self : Detector) : Detector :=
  set_classifiers (without i (self_classifiers self)) self.

(** What the loop of [process_output] keeps true of its variables: one
    probability per recorded class index, each the value of one or the
    product of two clamps; [prob_detected] is down exactly if some
    probability is [<= 0]; and outside debug mode a label is kept as soon as
    a classifier has contributed. *)
Definition rule_value (p : float) : Prop :=
  (exists x, p = clamp01 x) \/ (exists x y, p = (clamp01 x * clamp01 y)%float).

Definition recorded (dbg : bool) (acc : Acc) : Prop :=
  List.length (detected_indices acc) = List.length (probs acc)
  /\ Forall rule_value (probs acc)
  /\ prob_detected acc = forallb (fun p => negb (p <=? 0)%float) (probs acc)
  /\ (dbg = false -> probs acc <> [] -> label_strings acc <> []).

End DetectorSpec.

(** * Sample streams and ensembles *)

Module Samples.
Import VideoNotify.

(** A verdict without a confidence of its own. *)
Definition seen : Processed :=
  {| processed_looks_like := [];
     processed_prob := None;
     processed_bbox := {| bbox_left := 0; bbox_top := 0;
                          bbox_right := 10; bbox_bottom := 10 |} |}.

(** A verdict with confidence [c]. *)
Definition seen_with (c : float) : Processed :=
  {| processed_looks_like := ["alice"%string];
     processed_prob := Some c;
     processed_bbox := processed_bbox seen |}.

(** One turn of the caller's loop at time [now]. *)
Definition turn (p : option Processed) (now : float) : list Call :=
  [CallPrepare; CallExistsInFrame p (Some (frame_id 0)) now; CallMakeNotify].

(** The instance after two frames with a face, at 0 s and 2 s. *)
Definition two_frames : InVideoDetected :=
  {| done := false;
     prob := 0;
     not_detected_anymore := false;
     in_frames := [1; 1]%Z;
     in_frames_ts := [0; 2]%float;
     notified_awaiting := false;
     notified := false;
     notified_ts := None;
     looks_like := [];
     image := None |}.

(** The instance once the frame at 4 s has raised the notification. *)
Definition just_notified : InVideoDetected :=
  {| done := true;
     prob := 1;
     not_detected_anymore := false;
     in_frames := [1; 1]%Z;
     in_frames_ts := [2; 4]%float;
     notified_awaiting := true;
     notified := true;
     notified_ts := Some 4%float;
     looks_like := [];
     image := None |}.

(** The command line [--notify_face_detection_prob 0.9], the other two
    options at their defaults. *)
Definition args_09 : Args :=
  {| notify_face_detection_period := 3;
     notify_face_detection_prob := 0.9;
     notify_face_detection_stay := 120 |}.

End Samples.

Module DetectorSamples.
Import Detector.

Definition plain : Printf :=
  {| format_1f := fun _ => "#.#"%string;
     format_3f := fun _ => "#.###"%string |}.

(** A kNN model over two classes: ten training samples of class 0, two of
    class 1.  Whatever the embedding, it predicts class 0 and finds its
    nearest neighbour at distance 0.4; the first seven neighbours are of
    class 0, the eighth of class 1. *)
Definition farther : list float :=
  [0.5; 0.6; 0.7; 0.8; 0.9; 1; 1.1; 1.2; 1.3]%float.

Definition nearest : list nat := [0; 1; 2; 3; 4; 5; 6; 10; 7; 8].

Definition knn : Classifier :=
  {| clf_type := KNeighborsClassifier;
     n_features := 2;
     n_neighbors := 1;
     predict_proba := fun _ => Ok [0.7; 0.3]%float;
     kneighbors := fun _ n =>
       if (n =? 10)%Z then Ok (0.4%float :: farther, nearest)
       else Raise ValueError;
     _y := [0; 0; 0; 0; 0; 0; 0; 0; 0; 0; 1; 1] |}.

(** An SVM whose decision gives the probabilities [row]. *)
Definition svm (row : list float) : Classifier :=
  {| clf_type := SVC;
     n_features := 2;
     n_neighbors := 0;
     predict_proba := fun _ => Ok row;
     kneighbors := fun _ _ => Raise AttributeError;
     _y := [] |}.

(** An SVM that was fit on three features. *)
Definition svm3 : Classifier :=
  {| clf_type := SVC;
     n_features := 3;
     n_neighbors := 0;
     predict_proba := fun _ => Ok [0.2; 0.8]%float;
     kneighbors := fun _ _ => Raise AttributeError;
     _y := [] |}.

Definition names : list string := ["alice"; "bob"]%string.

Definition stats : list ClassStat := [{| embeddings := 10 |}; {| embeddings := 2 |}].

Definition ensemble (clfs : list Classifier) (cnames : list string)
  (sizes : list nat) : DetectorClassifiers :=
  {| classifiers := clfs;
     classifier_names := cnames;
     embedding_sizes := sizes;
     class_names := Some names;
     class_stats := Some stats |}.

Definition detector (use : bool) (cs : DetectorClassifiers) : Detector :=
  {| model_dir := Some "models"%string;
     classifiers_dir := "classifiers"%string;
     use_classifiers := use;
     self_classifiers := cs;
     threshold := 0.5;
     debug := false |}.

(** Only the kNN model. *)
Definition knn_only : Detector := detector true (ensemble [knn] ["kNN"%string] [2]).

(** Two SVMs that are both certain, of different classes. *)
Definition split_vote : Detector :=
  detector true
    (ensemble [svm [1; 0]%float; svm [0; 1]%float] ["SVM"; "SVM"]%string [2; 2]).

(** The kNN model and an SVM that agree on class 0. *)
Definition agreeing : Detector :=
  detector true
    (ensemble [knn; svm [0.05; 0.01]%float] ["kNN"; "SVM"]%string [2; 2]).

(** The same with an SVM for embeddings of another width in between. *)
Definition with_stranger : Detector :=
  detector true
    (ensemble [knn; svm3; svm [0.05; 0.01]%float] ["kNN"; "SVM"; "SVM"]%string
       [2; 3; 2]).

Definition embedding : list float := [0.1; 0.2]%float.

Definition box : BBox :=
  {| bbox_left := 1.5; bbox_top := 2.7; bbox_right := 100.2; bbox_bottom := 50 |}.

(** A detector that finds [box] in every frame, and an embedder that
    returns [embedding] for every face. *)
Definition one_face : Externals :=
  {| detect_faces := fun _ _ => [box];
     get_images := fun frame boxes => map (crop_by_box frame) boxes;
     inference_facenet := fun _ => embedding |}.

Definition artifact_svm (cnames : list string) (cstats : list ClassStat) : Artifact :=
  {| artifact_clf := svm [0.05; 0.01]%float;
     artifact_class_names := cnames;
     artifact_class_stats := cstats |}.

(** A directory whose second file names its classes differently. *)
Definition mixed_directory : list Artifact :=
  [artifact_svm names stats; artifact_svm ["alice"; "carol"]%string stats].

(** A detector that never loaded a classifier. *)
Definition fresh : Detector := detector false new_classifiers.

(** What the loop of [process_output] has recorded at its end. *)
Definition scored (self : Detector) (output : list float) : Acc :=
  match score_loop plain (self_classifiers self) (debug self) output 0
          (classifiers (self_classifiers self)) start with
  | Ok acc => acc
  | Raise _ => start
  end.

End DetectorSamples.

(** * notify/print.py *)

Module NotifyPrint.

(** ["=" * n] *)
Fixpoint bar (n : nat) : string :=
  match n with
  | 0 => EmptyString
  | S k => String (Ascii.ascii_of_nat 61) (bar k)
  end.

(** [max(ns)] on a list that starts with [n]. *)
Definition max_from (n : nat) (ns : list nat) : nat := fold_left Nat.max ns n.

Definition crlf : string :=
  String (Ascii.ascii_of_nat 13) (String (Ascii.ascii_of_nat 10) EmptyString).

(** The list [msg_strings] that [notify] builds.  [position] and [company]
    may be [None]; a string has one [ascii] per character. *)
Definition msg_strings (name : string) (position company : option string)
  (image : option Image) : list string :=
  [(name ++ " has been detected")%string]
    ++ (match position with
        | Some p => if String.eqb p "" then [] else [("Position: " ++ p)%string]
        | None => []
        end)
    ++ (match company with
        | Some c => if String.eqb c "" then [] else [("Company: " ++ c)%string]
        | None => []
        end)
    ++ (match image with
        | Some _ => ["[IMAGE]"%string]
        | None => []
        end).

(** [NotifyPrint.notify]: the three strings handed to [print_fun], in order. *)
Definition notify (name : string) (position company : option string)
  (image : option Image) : list string :=
  let msgs := msg_strings name position company image in
  let sl := match map String.length msgs with
            | [] => 0
            | n :: ns => max_from n ns
            end in
  [bar sl; String.concat crlf msgs; bar sl].

End NotifyPrint.

(** * control/listener.py *)

Module Listener.

(** What [listen] reports back for a request it does not hand on: the
    exception raised while the request was received and unpickled, or the
    [ValueError("test error")] of the command ["error"]. *)
Inductive Failure : Type :=
| LoadFailure (e : exn)
| TestError.

Section Listen.

Variable Data : Type.

(** One request as [pickle.loads(self.socket.recv())] and the assignment to
    [command, data] deliver it. *)
Definition Request : Type := result (string * Data).

(** The argument of one [self.socket.send(pickle.dumps(err))]. *)
Definition Reply : Type := option Failure.

(** The body of the [try]. *)
Definition receive (r : Request) : Failure + string * Data :=
  match r with
  | Raise e => inl (LoadFailure e)
  | Ok (command, data) =>
      if String.eqb command "error" then inl TestError else inr (command, data)
  end.

(** [listen], on the requests that arrive at the socket: the replies it has
    sent, and the request it returns together with the requests still to
    come; [None] when it is left waiting in [recv]. *)
Fixpoint listen (incoming : list Request)
  : list Reply * option (string * Data * list Request) :=
  match incoming with
  | [] => ([], None)
  | r :: rest =>
      match receive r with
      | inr cd => ([], Some (cd, rest))
      | inl e =>
          let '(sent, got) := listen rest in
          (Some e :: sent, got)
      end
  end.

(** [result(err)]: one reply. *)
Definition result_ (err : option Failure) : list Reply := [err].

End Listen.

End Listener.

(** * Vocabulary of the further statements *)

Module MoreSpec.
Import VideoNotify Detector.

(** A presence bit. *)
Definition is_bit (b : Z) : Prop := b = 0%Z \/ b = 1%Z.

(** A call made while the oldest possible sample [t0] is not yet more than
    [notify_period] behind. *)
Definition within_period (cls : InVideoDetectedClass) (t0 : float) (c : Call) : Prop :=
  match c with
  | CallExistsInFrame _ _ now =>
      gtb (now - t0)%float (float_of_Z (notify_period cls)) = false
  | _ => True
  end.

(** The oldest sample of a window with more than one sample is not older
    than [period]. *)
Definition trimmed (period : Z) (now : float) (ts : list float) : Prop :=
  match ts with
  | t :: _ :: _ => gtb (now - t)%float (float_of_Z period) = false
  | _ => True
  end.

(** Strictly before, in the order of [sort()] on strings. *)
Definition before (a b : string) : Prop := String.compare a b = Lt.

(** An artifact with the label space of [a0]. *)
Definition agrees (a0 a : Artifact) : Prop :=
  artifact_class_names a = artifact_class_names a0
  /\ artifact_class_stats a = artifact_class_stats a0.

(** [describe] along the files, counting from [clfi]. *)
Fixpoint described (clfi : nat) (found : list Artifact) : list (nat * string) :=
  match found with
  | [] => []
  | a :: rest => describe clfi (artifact_clf a) :: described (S clfi) rest
  end.

(** A classifier whose turn in the loop of [process_output] ends in one of
    the two [continue]: its [predict_proba] raises [ValueError], or it
    returns a row and the model is neither a kNN nor an SVC. *)
Definition passed_over (clf : Classifier) (output : list float) : Prop :=
  predict_proba clf output = Raise ValueError
  \/ (exists x row, predict_proba clf output = Ok (x :: row))
     /\ exists name, clf_type clf = OtherType name.

(** The box of an overlay, from the detector's box. *)
Definition truncated (b : BBox) : Z * Z * Z * Z :=
  (astype_int (bbox_left b), astype_int (bbox_top b),
   astype_int (bbox_right b), astype_int (bbox_bottom b)).

(** The requests that [listen] answers itself. *)
Definition rejected {Data : Type} (r : Listener.Request Data) : Prop :=
  exists e, Listener.receive r = inl e.

(** What the loop of [process_output] keeps true outside debug mode: the
    label kept is the class name of the first recorded class index. *)
Definition labelled (cs : DetectorClassifiers) (acc : Acc) : Prop :=
  match detected_indices acc with
  | [] => label_strings acc = []
  | i :: _ =>
      exists name,
        py_index_opt (class_names cs) i = Ok name /\ label_strings acc = [name]
  end.

(** The samples that a stream of calls appends to the window, oldest first:
    one for each [exists_in_frame] that finds [done] lowered; [d] is [done]
    before the calls. *)
Fixpoint appended (d : bool) (calls : list Call) : list (Z * float) :=
  match calls with
  | [] => []
  | CallPrepare :: rest => appended false rest
  | CallExistsInFrame p _ now :: rest =>
      if d then appended true rest
      else (VideoNotifySpec.bit p, now) :: appended true rest
  | CallMakeNotify :: rest => appended d rest
  end.

(** What the calls leave in [prob] when only the best-seen rule writes it,
    [m] being the value before the calls. *)
Fixpoint best_of (d : bool) (m : float) (calls : list Call) : float :=
  match calls with
  | [] => m
  | CallPrepare :: rest => best_of false m rest
  | CallExistsInFrame p f _ :: rest =>
      if d then best_of true m rest
      else best_of true (VideoNotifySpec.best_seen m p f) rest
  | CallMakeNotify :: rest => best_of d m rest
  end.

End MoreSpec.

Module MoreSamples.
Import VideoNotify Detector Samples DetectorSamples.

(** Notified at 4 s, with the notification already fetched, and prepared for
    the next frame. *)
Definition notified_at_4 : InVideoDetected :=
  {| done := false;
     prob := 1;
     not_detected_anymore := false;
     in_frames := [1; 1]%Z;
     in_frames_ts := [2; 4]%float;
     notified_awaiting := false;
     notified := true;
     notified_ts := Some 4%float;
     looks_like := [];
     image := None |}.

(** A model of a type the detector does not know, with a [predict_proba]. *)
Definition forest : Classifier :=
  {| clf_type := OtherType "RandomForestClassifier";
     n_features := 2;
     n_neighbors := 0;
     predict_proba := fun _ => Ok [0.5; 0.5]%float;
     kneighbors := fun _ _ => Raise AttributeError;
     _y := [] |}.

(** A model of a type without [predict_proba]. *)
Definition regressor : Classifier :=
  {| clf_type := OtherType "LinearRegression";
     n_features := 2;
     n_neighbors := 0;
     predict_proba := fun _ => Raise AttributeError;
     kneighbors := fun _ _ => Raise AttributeError;
     _y := [] |}.

(** A kNN model fit on fewer samples than its class count asks for. *)
Definition small_knn : Classifier :=
  {| clf_type := KNeighborsClassifier;
     n_features := 2;
     n_neighbors := 1;
     predict_proba := fun _ => Ok [0.7; 0.3]%float;
     kneighbors := fun _ _ => Raise ValueError;
     _y := [0; 0; 1] |}.

Definition with_forest_2 : Detector :=
  detector true
    (ensemble [knn; forest; svm [0.05; 0.01]%float] ["kNN"; "1"; "SVM"]%string
       [2; 2; 2]).

Definition with_regressor : Detector :=
  detector true
    (ensemble [svm [0.05; 0.01]%float; regressor] ["SVM"; "1"]%string [2; 2]).

Definition with_small_knn : Detector :=
  detector true
    (ensemble [svm [0.05; 0.01]%float; small_knn] ["SVM"; "kNN"]%string [2; 2]).

(** Three requests: one that cannot be unpickled, the test command, and a
    reload command. *)
Definition requests : list (Listener.Request nat) :=
  [Raise TypeError; Ok ("error"%string, 0); Ok ("reload_classifiers"%string, 7)].

End MoreSamples.

(** * The fusion engine, step by step *)

Module FusionSpec.
Import Detector DetectorSpec.

(** The weight of an SVM vote: [clamp(0,1, 10 * p)]. *)
Definition svm_weight (p : float) : float := clamp01 (10 * p)%float.

(** The weight of a kNN vote:
    [clamp(0,1, 2*first_run/k - 0.5) * clamp(0,1, 2.5 - 3*d)]. *)
Definition knn_weight (run : nat) (k : Z) (d : float) : float :=
  (clamp01 (float_of_Z (2 * Z.of_nat run) / float_of_Z k - 0.5)
   * clamp01 (2.5 - 3 * d))%float.

(** The arg-max class [best] of a row of probabilities and its probability
    [p]: no entry is greater than [p], the entry at [best], and every entry
    before [best] is smaller. *)
Definition arg_max (row : list float) (best : nat) (p : float) : Prop :=
  nth_error row best = Some p
  /\ (forall j q, nth_error row j = Some q -> (q <=? p)%float = true)
  /\ (forall j q, nth_error row j = Some q -> j < best -> (q <? p)%float = true).

Section Steps.

Variable cs : DetectorClassifiers.
Variable output : list float.

(** Step 1: the embedding has the length that classifier [clfi] expects. *)
Definition fits (clfi : nat) : Prop :=
  nth_error (embedding_sizes cs) clfi = Some (List.length output).

(** Step 2: inference gives a row of class probabilities, [best] is its
    arg-max class and [p] the probability of that class. *)
Definition predicts (clf : Classifier) (best : nat) (p : float) : Prop :=
  exists row, predict_proba clf output = Ok row /\ arg_max row best p.

(** The predicted class has a name in the label space and the classifier a
    display name. *)
Definition known (clfi best : nat) : Prop :=
  (exists name, py_index_opt (class_names cs) best = Ok name)
  /\ (exists cname, nth_error (classifier_names cs) clfi = Some cname).

(** The turn of classifier [clfi]: it is left out of the fusion ([None]:
    the embedding does not fit, inference rejects the embedding with a
    [ValueError], or the model is of an unsupported kind), or it votes for
    its arg-max class with the weight of its kind. *)
Inductive turn (clfi : nat) (clf : Classifier) : option (nat * float) -> Prop :=
| left_out_mismatch size :
    nth_error (embedding_sizes cs) clfi = Some size ->
    List.length output <> size ->
    turn clfi clf None
| left_out_rejected :
    fits clfi ->
    predict_proba clf output = Raise ValueError ->
    turn clfi clf None
| left_out_unsupported name x row :
    fits clfi ->
    clf_type clf = OtherType name ->
    predict_proba clf output = Ok (x :: row) ->
    turn clfi clf None
| votes_svm best p :
    fits clfi ->
    clf_type clf = SVC ->
    predicts clf best p ->
    known clfi best ->
    turn clfi clf (Some (best, svm_weight p))
| votes_knn best p k d rest neighbors_indices :
    fits clfi ->
    clf_type clf = KNeighborsClassifier ->
    predicts clf best p ->
    known clfi best ->
    py_index_opt (class_stats cs) best = Ok {| embeddings := k |} ->
    k <> 0%Z ->
    kneighbors clf output k = Ok (d :: rest, neighbors_indices) ->
    Forall (fun i => i < List.length (_y clf)) neighbors_indices ->
    turn clfi clf
      (Some (best,
             knn_weight (first_run best (neighbor_classes (_y clf) neighbors_indices))
               k d)).

(** The turns of the classifiers [clfs], which stand in the ensemble from
    position [clfi] on. *)
Inductive turns : nat -> list Classifier -> list (option (nat * float)) -> Prop :=
| turns_nil clfi : turns clfi [] []
| turns_cons clfi clf clfs v vs :
    turn clfi clf v ->
    turns (S clfi) clfs vs ->
    turns clfi (clf :: clfs) (v :: vs).

End Steps.

(** The votes cast: the contributing classifiers' class indices and
    probabilities, in the order of the ensemble. *)
Fixpoint contributions (vs : list (option (nat * float))) : list (nat * float) :=
  match vs with
  | [] => []
  | Some v :: rest => v :: contributions rest
  | None :: rest => contributions rest
  end.

(** The fusion rule: all votes are for one class and every weight is
    greater than 0. *)
Definition unanimous (votes : list (nat * float)) : Prop :=
  same_class (map fst votes) /\ Forall positive (map snd votes).

(** What a turn with outcome [v] appends to the two lists of the loop of
    [process_output]. *)
Definition cast (v : option (nat * float)) (acc acc' : Acc) : Prop :=
  detected_indices acc' = detected_indices acc ++ map fst (contributions [v])
  /\ probs acc' = probs acc ++ map snd (contributions [v]).

End FusionSpec.

Module FusionSamples.
Import Detector DetectorSamples MoreSamples.

(** The votes of [agreeing] on [embedding]: the kNN model and the SVM both
    vote for class 0. *)
Definition agreeing_votes : list (option (nat * float)) :=
  [Some (0, 0.89999999999999991%float); Some (0, 0.5%float)].

(** The votes of [split_vote]. *)
Definition split_votes : list (option (nat * float)) :=
  [Some (0, 1%float); Some (1, 1%float)].

(** The vote of [knn] and the vote of [svm [0.05; 0.01]] on [embedding]. *)
Definition knn_vote : list (option (nat * float)) :=
  [Some (0, 0.89999999999999991%float)].

Definition svm_vote : list (option (nat * float)) := [Some (0, 0.5%float)].

(** The overlay and the label of a detected "alice" in [box]. *)
Definition alice_overlay : Overlay :=
  {| bb := (1, 2, 100, 50)%Z; thin := false; color := (0, 255, 0)%Z |}.

Definition alice_label : Label :=
  {| label := "alice"; left := 1; top := 2; right := 100; bottom := 50;
     label_color := (0, 255, 0)%Z |}.

(** The kNN model and an SVM that gives every class the probability 0. *)
Definition one_unsure : Detector :=
  detector true (ensemble [knn; svm [0; 0]%float] ["kNN"; "SVM"]%string [2; 2]).

(** Its votes: both for class 0, the second with weight 0. *)
Definition unsure_votes : list (option (nat * float)) :=
  [Some (0, 0.89999999999999991%float); Some (0, 0%float)].

(** An SVM for embeddings of another width, followed by a model without
    [predict_proba]. *)
Definition stranger_then_regressor : Detector :=
  detector true (ensemble [svm3; regressor] ["SVM"; "1"]%string [3; 2]).

(** The same SVM, followed by a kNN model whose [kneighbors] raises. *)
Definition stranger_then_small_knn : Detector :=
  detector true (ensemble [svm3; small_knn] ["SVM"; "kNN"]%string [3; 2]).

End FusionSamples.

Unset Implicit Arguments.

(** * The temporal debouncer *)

Module VideoNotifyProps.
Import VideoNotify VideoNotifySpec Samples.

Ltac case_if :=
  match goal with
  | |- context [if ?c then _ else _] => destruct c eqn:?
  end.

Lemma prune_unfold period now fr t0 t1 rest b :
  prune period now fr (t0 :: t1 :: rest) b =
  if gtb (now - t0)%float (float_of_Z period) then
    match fr with
    | _ :: fr' => prune period now fr' (t1 :: rest) true
    | [] => Raise IndexError
    end
  else Ok (fr, t0 :: t1 :: rest, b).
Proof. reflexivity. Qed.

(** The pruning loop never raises on lists of one length, keeps them of one
    length, leaves at least one sample, and reports a removal exactly when
    the window got shorter. *)
Lemma prune_spec period now ts :
  forall fr b, List.length fr = List.length ts ->
  exists fr' ts' b',
    prune period now fr ts b = Ok (fr', ts', b')
    /\ List.length fr' = List.length ts'
    /\ (ts <> [] -> ts' <> [])
    /\ List.length fr' <= List.length fr
    /\ (b' = true <-> b = true \/ List.length fr' < List.length fr).
Proof.
  induction ts as [| t0 rest IH]; intros fr b Hlen.
  - exists fr, [], b. simpl. repeat split; auto; try tauto; try lia;
      intros [H | H]; [assumption | lia].
  - destruct rest as [| t1 rest'].
    + exists fr, [t0], b. simpl. repeat split; auto; try tauto; try lia;
        intros [H | H]; [assumption | lia].
    + rewrite prune_unfold. destruct (gtb (now - t0) (float_of_Z period)) eqn:Hgt.
      * destruct fr as [| x fr']; [discriminate Hlen |].
        destruct (IH fr' true) as (fr2 & ts2 & b2 & Hp & Hl & Hne & Hle & Hb).
        { simpl in Hlen |- *. lia. }
        exists fr2, ts2, b2. rewrite Hp. repeat split; auto.
        -- intros _. apply Hne. discriminate.
        -- simpl. lia.
        -- intros _. right. simpl. lia.
        -- intros _. apply Hb. now left.
      * exists fr, (t0 :: t1 :: rest'), b. repeat split; auto; try tauto; try lia;
          intros [H | H]; [assumption | lia].
Qed.

Lemma window_mean_ok fr :
  fr <> [] ->
  window_mean fr = Ok (float_of_Z (sum_Z fr) / float_of_Z (Z.of_nat (List.length fr)))%float.
Proof. destruct fr; [congruence | reflexivity]. Qed.

(** [absorb] touches [prob], [image] and [looks_like] only. *)
Lemma absorb_frame p f s :
  done (absorb p f s) = done s
  /\ in_frames (absorb p f s) = in_frames s
  /\ in_frames_ts (absorb p f s) = in_frames_ts s
  /\ notification_state (absorb p f s) = notification_state s.
Proof.
  unfold absorb, notification_state.
  destruct (processed_looks_like p), (processed_prob p), f; simpl;
    try case_if; simpl; auto.
Qed.

Lemma absorb_prob p f s :
  prob (absorb p f s) = best_seen (prob s) (Some p) f.
Proof.
  unfold absorb, best_seen.
  destruct (processed_looks_like p), (processed_prob p), f; simpl;
    try case_if; simpl; auto.
Qed.


Lemma recompute_spec cls now s m :
  window_mean (in_frames s) = Ok m ->
  (notified s = true -> notified_ts s <> None) ->
  exists s',
    recompute cls now s = Ok s'
    /\ prob s' = m
    /\ done s' = done s
    /\ in_frames s' = in_frames s
    /\ in_frames_ts s' = in_frames_ts s
    /\ notification_state s' = renotify cls now m (notification_state s).
Proof.
  intros Hm Hts. unfold recompute. rewrite Hm. cbn [bind].
  unfold notification_state, renotify, gtb.
  destruct s as [d p nd fr ts aw n nts ll im]; cbn in Hts |- *.
  destruct n; cbn.
  - destruct nts as [t |]; [| exfalso; now apply Hts].
    destruct (stay_notified cls <? now - t)%float; cbn;
      destruct (notify_prob cls <? m)%float; cbn;
      destruct (m =? 0)%float; cbn; eexists; repeat split.
  - destruct (notify_prob cls <? m)%float; cbn;
      destruct (m =? 0)%float; cbn; eexists; repeat split.
Qed.


Lemma renotify_keeps_time cls now m n aw ts :
  (n = true -> ts <> None) ->
  let '(n', _, ts') := renotify cls now m (n, aw, ts) in
  n' = true -> ts' <> None.
Proof.
  intros H. unfold renotify.
  destruct n; cbn.
  - destruct ts as [t |]; [| exfalso; now apply H].
    destruct (gtb (now - t) (stay_notified cls)), (gtb m (notify_prob cls));
      cbn; congruence.
  - destruct (gtb m (notify_prob cls)); cbn; congruence.
Qed.

(** A call on an instance that was prepared: the window after pruning, and
    what happens to [prob] and to the notification fields. *)
Lemma exists_in_frame_spec cls s p f now :
  done s = false -> consistent s ->
  exists s' (b : bool),
    prune (notify_period cls) now (in_frames s ++ [bit p]) (in_frames_ts s ++ [now]) false
      = Ok (in_frames s', in_frames_ts s', b)
    /\ exists_in_frame cls s p f now = Ok s'
    /\ done s' = true
    /\ consistent s'
    /\ (b = true <-> List.length (in_frames s') <= List.length (in_frames s))
    /\ (if b
        then exists m,
               window_mean (in_frames s') = Ok m
               /\ prob s' = best_seen m p f
               /\ notification_state s' = renotify cls now m (notification_state s)
        else prob s' = best_seen (prob s) p f
             /\ notification_state s' = notification_state s).
Proof.
  intros Hd [Hlen Hts].
  destruct (prune_spec (notify_period cls) now (in_frames_ts s ++ [now])
              (in_frames s ++ [bit p]) false)
    as (fr & ts & b & Hp & Hl & Hne & Hle & Hb).
  { rewrite !length_app. simpl. lia. }
  assert (Hfr : fr <> []).
  { assert (ts <> []) as H by (apply Hne; now destruct (in_frames_ts s)).
    destruct fr; [destruct ts; [congruence | discriminate Hl] | discriminate]. }
  assert (Hb' : b = true <-> List.length fr <= List.length (in_frames s)).
  { rewrite Hb. rewrite length_app. simpl. split.
    - intros [H | H]; [discriminate | lia].
    - intros H. right. lia. }
  unfold exists_in_frame. rewrite Hd. fold (bit p). rewrite Hp. cbn [bind].
  destruct b.
  - set (m := (float_of_Z (sum_Z fr) / float_of_Z (Z.of_nat (List.length fr)))%float).
    destruct (recompute_spec cls now (set_window fr ts s) m)
      as (s2 & Hr & Hprob & Hdone & Hfr2 & Hts2 & Hns).
    { now apply window_mean_ok. }
    { exact Hts. }
    rewrite Hr. cbn [bind].
    change (notification_state (set_window fr ts s)) with (notification_state s) in Hns.
    pose proof (renotify_keeps_time cls now m (notified s) (notified_awaiting s)
                  (notified_ts s) Hts) as Hk.
    change (notified s, notified_awaiting s, notified_ts s)
      with (notification_state s) in Hk.
    rewrite <- Hns in Hk. unfold notification_state in Hk. cbn in Hk.
    cbn in Hfr2, Hts2.
    assert (Hw : window_mean fr = Ok m) by now apply window_mean_ok.
    destruct p as [p |].
    + destruct (absorb_frame p f s2) as (A1 & A2 & A3 & A4).
      pose proof A4 as A4'. unfold notification_state in A4'.
      injection A4' as E1 E2 E3.
      exists (set_done true (absorb p f s2)), true. cbn.
      rewrite A2, A3, Hfr2, Hts2.
      split; [reflexivity |]. split; [reflexivity |]. split; [reflexivity |].
      split; [split; cbn; [rewrite A2, A3, Hfr2, Hts2; exact Hl | rewrite E1, E3; exact Hk] |].
      split; [exact Hb' |].
      exists m. split; [exact Hw |]. split.
      * rewrite absorb_prob, Hprob. reflexivity.
      * etransitivity; [| exact Hns]. exact A4.
    + exists (set_done true s2), true. cbn. rewrite Hfr2, Hts2.
      split; [reflexivity |]. split; [reflexivity |]. split; [reflexivity |].
      split; [split; cbn; [rewrite Hfr2, Hts2; exact Hl | exact Hk] |].
      split; [exact Hb' |].
      exists m. split; [exact Hw |]. split.
      * exact Hprob.
      * exact Hns.
  - destruct p as [p |].
    + destruct (absorb_frame p f (set_window fr ts s)) as (A1 & A2 & A3 & A4).
      pose proof A4 as A4'. unfold notification_state in A4'.
      injection A4' as E1 E2 E3. cbn in E1, E2, E3.
      exists (set_done true (absorb p f (set_window fr ts s))), false. cbn.
      rewrite A2, A3. cbn.
      split; [reflexivity |]. split; [reflexivity |]. split; [reflexivity |].
      split; [split; cbn; [rewrite A2, A3; exact Hl | rewrite E1, E3; exact Hts] |].
      split; [exact Hb' |].
      split.
      * rewrite absorb_prob. reflexivity.
      * exact A4.
    + exists (set_done true (set_window fr ts s)), false. cbn.
      split; [reflexivity |]. split; [reflexivity |]. split; [reflexivity |].
      split; [split; cbn; [exact Hl | exact Hts] |].
      split; [exact Hb' |].
      split; reflexivity.
Qed.


Lemma init_consistent : consistent init.
Proof. split; [reflexivity | discriminate]. Qed.

(** From a consistent instance no stream of calls raises, and the instance
    stays consistent. *)
Lemma run_total cls calls :
  forall s, consistent s ->
  exists bs s', run cls s calls = Ok (bs, s') /\ consistent s'.
Proof.
  induction calls as [| c calls IH]; intros s Hcons.
  - exists [], s. split; [reflexivity | exact Hcons].
  - destruct c as [| p f now |]; cbn [run].
    + apply IH. destruct Hcons as [Hl Hk]. split; assumption.
    + destruct (done s) eqn:Hd.
      * unfold exists_in_frame. rewrite Hd. cbn [bind]. now apply IH.
      * destruct (exists_in_frame_spec cls s p f now Hd Hcons)
          as (s' & b & _ & He & _ & Hcons' & _).
        rewrite He. cbn [bind]. now apply IH.
    + unfold make_notify.
      destruct (notified s && notified_awaiting s).
      * destruct (IH (set_notified (notified s) false (notified_ts s) s))
          as (bs & s' & Hr & Hc).
        { destruct Hcons as [Hl Hk]. split; assumption. }
        rewrite Hr. cbn [bind]. eauto.
      * destruct (IH s Hcons) as (bs & s' & Hr & Hc).
        rewrite Hr. cbn [bind]. eauto.
Qed.

Lemma count_occ_repeat_false k :
  count_occ bool_dec (repeat false k) true = 0.
Proof. induction k; simpl; auto. Qed.

(** Along calls made within [stay_notified] of the notification, a notified
    instance stays notified and hands out what is left of its single shot. *)
Lemma run_notified cls t0 calls :
  Forall (within_stay cls t0) calls ->
  forall s,
    consistent s -> notified s = true -> notified_ts s = Some t0 ->
    exists s2,
      run cls s calls
      = Ok (if notified_awaiting s
            then single_shot (polls calls)
            else repeat false (polls calls), s2).
Proof.
  induction 1 as [| c calls Hc _ IH]; intros s Hcons Hn Ht.
  - exists s. cbn. now destruct (notified_awaiting s).
  - destruct c as [| p f now |].
    + cbn [run polls].
      assert (Hcons' : consistent (prepare s)).
      { destruct Hcons as [Hl Hk]. split; assumption. }
      destruct (IH (prepare s) Hcons' Hn Ht) as (s2 & Hr).
      exists s2. exact Hr.
    + cbn [run polls]. cbn in Hc.
      destruct (done s) eqn:Hd.
      * unfold exists_in_frame. rewrite Hd. cbn [bind]. now apply IH.
      * destruct (exists_in_frame_spec cls s p f now Hd Hcons)
          as (s' & b & _ & He & _ & Hcons' & _ & Hcase).
        rewrite He. cbn [bind].
        assert (Hst : notification_state s' = notification_state s).
        { destruct b.
          - destruct Hcase as (m & _ & _ & Hns). rewrite Hns.
            unfold notification_state, renotify. rewrite Hn, Ht, Hc. cbn.
            now rewrite andb_false_r.
          - apply Hcase. }
        unfold notification_state in Hst. injection Hst as E1 E2 E3.
        rewrite <- E2. apply IH; congruence.
    + cbn [run polls]. unfold make_notify. rewrite Hn. cbn [andb].
      destruct (notified_awaiting s) eqn:Haw.
      * destruct (IH (set_notified true false (notified_ts s) s)) as (s2 & Hr).
        { destruct Hcons as [Hl Hk]. split; cbn; auto. }
        { reflexivity. }
        { exact Ht. }
        cbn in Hr. exists s2. rewrite Hr. reflexivity.
      * destruct (IH s Hcons Hn Ht) as (s2 & Hr).
        rewrite Haw in Hr. exists s2. rewrite Hr. reflexivity.
Qed.

Lemma polls_pos calls : In CallMakeNotify calls -> 0 < polls calls.
Proof.
  induction calls as [| c calls IH]; intros H; [destruct H |].
  destruct H as [-> | H]; cbn; [lia |].
  destruct c; auto; lia.
Qed.

(** C5: once a call of [exists_in_frame] has taken an idle instance to the
    notified state, exactly the first call of [make_notify] returns [True]
    among all calls made while [now - notified_ts > stay_notified] is false,
    whatever the stream of frames and recomputed probabilities. *)
Theorem make_notify_single_shot cls s p f t0 s1 calls :
  consistent s -> notified s = false ->
  exists_in_frame cls s p f t0 = Ok s1 -> notified s1 = true ->
  Forall (within_stay cls t0) calls ->
  exists s2,
    run cls s1 calls = Ok (single_shot (polls calls), s2)
    /\ (In CallMakeNotify calls ->
        count_occ bool_dec (single_shot (polls calls)) true = 1).
Proof.
  intros Hcons Hidle He Hn Hcalls.
  assert (Hd : done s = false).
  { destruct (done s) eqn:Hd; [| reflexivity].
    unfold exists_in_frame in He. rewrite Hd in He. congruence. }
  destruct (exists_in_frame_spec cls s p f t0 Hd Hcons)
    as (s' & b & _ & He' & _ & Hcons' & _ & Hcase).
  rewrite He in He'. injection He' as <-.
  assert (Hst : notification_state s1 = (true, true, Some t0)).
  { destruct b.
    - destruct Hcase as (m & _ & _ & Hns). rewrite Hns.
      unfold notification_state in Hns |- *. unfold renotify in Hns |- *.
      rewrite Hidle in Hns |- *. cbn in Hns |- *.
      destruct (gtb m (notify_prob cls)); cbn in Hns |- *; [reflexivity |].
      congruence.
    - destruct Hcase as [_ Hns]. unfold notification_state in Hns. congruence. }
  unfold notification_state in Hst. injection Hst as E1 E2 E3.
  destruct (run_notified cls t0 calls Hcalls s1 Hcons' E1 E3) as (s2 & Hr).
  rewrite E2 in Hr. exists s2. split; [exact Hr |].
  intros Hin. apply polls_pos in Hin.
  destruct (polls calls) as [| k]; [lia |].
  cbn. apply f_equal. apply count_occ_repeat_false.
Qed.

Lemma make_notify_single_shot_witness :
  exists s2,
    run InVideoDetected_class just_notified
      (CallMakeNotify :: turn (Some seen) 5 ++ turn None 6)
    = Ok (single_shot 3, s2)
    /\ (In CallMakeNotify (CallMakeNotify :: turn (Some seen) 5 ++ turn None 6) ->
        count_occ bool_dec (single_shot 3) true = 1).
Proof.
  apply (make_notify_single_shot InVideoDetected_class two_frames (Some seen)
           (Some (frame_id 2)) 4%float just_notified
           (CallMakeNotify :: turn (Some seen) 5 ++ turn None 6)).
  - split; [reflexivity | discriminate].
  - reflexivity.
  - vm_compute. reflexivity.
  - reflexivity.
  - repeat constructor.
Defined.


(** C6, as the code has it: a call on a prepared instance returns; if it
    pruned the window (the window is not longer than before, although one
    sample was appended) [prob] is recomputed in that same call as the mean
    of the pruned window, the first pruning included; if it pruned nothing
    (the window grew by one) there is no recomputation.  In both cases the
    best-seen rule is applied afterwards. *)
Theorem recompute_with_every_prune cls s p f now :
  consistent s -> done s = false ->
  exists s',
    exists_in_frame cls s p f now = Ok s'
    /\ (List.length (in_frames s') <= List.length (in_frames s) ->
        exists m, window_mean (in_frames s') = Ok m /\ prob s' = best_seen m p f)
    /\ (List.length (in_frames s') = S (List.length (in_frames s)) ->
        prob s' = best_seen (prob s) p f)
    /\ (List.length (in_frames s') <= List.length (in_frames s)
        \/ List.length (in_frames s') = S (List.length (in_frames s))).
Proof.
  intros Hcons Hd.
  destruct (exists_in_frame_spec cls s p f now Hd Hcons)
    as (s' & b & Hp & He & _ & _ & Hb & Hcase).
  exists s'. split; [exact He |].
  destruct (prune_spec (notify_period cls) now (in_frames_ts s ++ [now])
              (in_frames s ++ [bit p]) false)
    as (fr & ts & b' & Hp' & _ & _ & Hle & _).
  { destruct Hcons as [Hl _]. rewrite !length_app. simpl. lia. }
  rewrite Hp in Hp'. injection Hp' as <- <- <-.
  rewrite length_app in Hle. simpl in Hle.
  destruct b.
  - destruct Hcase as (m & Hm & Hprob & _).
    assert (List.length (in_frames s') <= List.length (in_frames s)) as Hlt
      by now apply Hb.
    split; [intros _; now exists m |]. split; [intros H; lia | now left].
  - destruct Hcase as [Hprob _].
    assert (~ List.length (in_frames s') <= List.length (in_frames s)) as Hnlt.
    { intros H. apply Hb in H. discriminate. }
    split; [intros H; contradiction |]. split; [intros _; exact Hprob | right; lia].
Qed.

Lemma recompute_with_every_prune_witness :
  exists s',
    exists_in_frame InVideoDetected_class two_frames (Some seen) (Some (frame_id 2)) 4
    = Ok s'
    /\ (List.length (in_frames s') <= List.length (in_frames two_frames) ->
        exists m, window_mean (in_frames s') = Ok m
                  /\ prob s' = best_seen m (Some seen) (Some (frame_id 2)))
    /\ (List.length (in_frames s') = S (List.length (in_frames two_frames)) ->
        prob s' = best_seen (prob two_frames) (Some seen) (Some (frame_id 2)))
    /\ (List.length (in_frames s') <= List.length (in_frames two_frames)
        \/ List.length (in_frames s') = S (List.length (in_frames two_frames))).
Proof.
  apply (recompute_with_every_prune InVideoDetected_class two_frames (Some seen)
           (Some (frame_id 2)) 4%float).
  - split; [reflexivity | discriminate].
  - reflexivity.
Defined.

(** C6, the counterexample: with the default period of 3 s, frames at 0 s
    and 2 s prune nothing and leave [prob] at 0; the frame at 4 s prunes for
    the first time, and that very call sets [prob] to the mean 1 of the
    pruned window. *)
Lemma first_prune_recomputes :
  run InVideoDetected_class init
    (turn (Some seen) 0 ++ turn (Some seen) 2 ++ [CallPrepare])
  = Ok ([false; false], two_frames)
  /\ in_frames_ts two_frames = [0; 2]%float
  /\ prob two_frames = 0%float
  /\ exists s3,
       exists_in_frame InVideoDetected_class two_frames (Some seen)
         (Some (frame_id 2)) 4
       = Ok s3
       /\ in_frames_ts s3 = [2; 4]%float
       /\ window_mean (in_frames s3) = Ok 1%float
       /\ prob s3 = 1%float
       /\ prob s3 <> prob two_frames.
Proof.
  split; [vm_compute; reflexivity |].
  split; [reflexivity |]. split; [reflexivity |].
  eexists. split; [vm_compute; reflexivity |].
  cbn. split; [reflexivity |]. split; [vm_compute; reflexivity |].
  split; [reflexivity |].
  intros H. apply (f_equal (fun x => (x =? 0)%float)) in H.
  vm_compute in H. discriminate.
Qed.

Lemma init_in_video_detected_keeps_notify_prob args cls :
  notify_prob (init_in_video_detected args cls) = notify_prob cls.
Proof. reflexivity. Qed.

(** C8, where the code departs from it: the defaults are 3, 0.5 and 120, and
    [init_in_video_detected] configures [notify_period] and [stay_notified],
    but it stores the configured probability in the class attribute [prob];
    [notify_prob] keeps 0.5.  Configured with 0.9, an instance still notifies
    at a window mean of 2/3. *)
Theorem notify_prob_not_configured :
  notify_period InVideoDetected_class = 3%Z
  /\ notify_prob InVideoDetected_class = 0.5%float
  /\ stay_notified InVideoDetected_class = 120%float
  /\ (let cls := init_in_video_detected args_09 InVideoDetected_class in
      notify_period cls = notify_face_detection_period args_09
      /\ stay_notified cls = notify_face_detection_stay args_09
      /\ notify_face_detection_prob args_09 = 0.9%float
      /\ notify_prob cls = 0.5%float
      /\ class_prob cls = Some 0.9%float
      /\ exists s,
           run cls init
             (turn (Some seen) 0 ++ turn (Some seen) 1 ++ turn None 2
                ++ turn (Some seen) 4)
           = Ok ([false; false; false; true], s)
           /\ in_frames s = [1; 0; 1]%Z
           /\ gtb (prob s) 0.9 = false).
Proof.
  repeat (split; [reflexivity |]). cbv zeta.
  repeat (split; [reflexivity |]).
  eexists. split; [vm_compute; reflexivity |].
  split; [reflexivity | vm_compute; reflexivity].
Qed.

(** C10, the counterexample: the verdict carries confidence 0.9, the stored
    probability is 0 and a frame is supplied, yet the call leaves 1 in
    [prob]: it pruned the window, recomputed [prob] as 1 and compared the
    confidence with that. *)
Lemma confidence_above_stored_not_kept :
  processed_prob (seen_with 0.9) = Some 0.9%float
  /\ gtb 0.9 (prob two_frames) = true
  /\ exists s3,
       exists_in_frame InVideoDetected_class two_frames (Some (seen_with 0.9))
         (Some (frame_id 2)) 4
       = Ok s3
       /\ prob s3 = 1%float
       /\ prob s3 <> 0.9%float.
Proof.
  split; [reflexivity |]. split; [vm_compute; reflexivity |].
  eexists. split; [vm_compute; reflexivity |].
  cbn. split; [reflexivity |].
  intros H. apply (f_equal (fun x => (x =? 0.9)%float)) in H.
  vm_compute in H. discriminate.
Qed.

(** C10, as the code has it: window probability and best-seen confidence
    share the field [prob].  A call on a prepared instance with a frame and
    a verdict of confidence [c] leaves [c] in [prob] exactly when [c] is
    greater than the value the comparison finds there, which is the mean of
    the window if this call pruned it and the stored value otherwise.  The
    value stored before a call never reaches the comparison with
    [notify_prob]: the notification fields after the call do not depend on
    it. *)
Theorem best_seen_shares_prob cls s p frame now c :
  consistent s -> done s = false -> processed_prob p = Some c ->
  exists s',
    exists_in_frame cls s (Some p) (Some frame) now = Ok s'
    /\ (gtb c (held s s') = true -> prob s' = c)
    /\ (gtb c (held s s') = false -> prob s' = held s s')
    /\ forall q,
         exists s'',
           exists_in_frame cls (set_prob q s) (Some p) (Some frame) now = Ok s''
           /\ notification_state s'' = notification_state s'.
Proof.
  intros Hcons Hd Hc.
  destruct (exists_in_frame_spec cls s (Some p) (Some frame) now Hd Hcons)
    as (s' & b & Hp & He & _ & _ & Hb & Hcase).
  exists s'. split; [exact He |].
  assert (Hheld : prob s' = best_seen (held s s') (Some p) (Some frame)).
  { unfold held. destruct b.
    - destruct Hcase as (m & Hm & Hprob & _).
      assert (List.length (in_frames s') <= List.length (in_frames s)) as Hle
        by now apply Hb.
      apply Nat.leb_le in Hle. rewrite Hle.
      destruct (in_frames s') as [| x fr]; [discriminate Hm |].
      cbn [window_mean] in Hm. injection Hm as <-. exact Hprob.
    - destruct Hcase as [Hprob _].
      destruct (Nat.leb (List.length (in_frames s')) (List.length (in_frames s))) eqn:Hle.
      + apply Nat.leb_le, Hb in Hle. discriminate.
      + exact Hprob. }
  unfold best_seen in Hheld. rewrite Hc in Hheld.
  split; [intros H; now rewrite H in Hheld |].
  split; [intros H; now rewrite H in Hheld |].
  intros q.
  assert (Hcons_q : consistent (set_prob q s)).
  { destruct Hcons as [Hl Hk]. split; assumption. }
  destruct (exists_in_frame_spec cls (set_prob q s) (Some p) (Some frame) now Hd Hcons_q)
    as (s'' & b'' & Hp'' & He'' & _ & _ & _ & Hcase'').
  exists s''. split; [exact He'' |].
  cbn [set_prob in_frames in_frames_ts] in Hp''.
  rewrite Hp in Hp''. injection Hp'' as E1 E2 <-.
  destruct b.
  - destruct Hcase as (m & Hm & _ & Hns).
    destruct Hcase'' as (m' & Hm' & _ & Hns').
    rewrite <- E1, Hm in Hm'. injection Hm' as <-.
    rewrite Hns, Hns'. reflexivity.
  - destruct Hcase as [_ Hns]. destruct Hcase'' as [_ Hns'].
    rewrite Hns, Hns'. reflexivity.
Qed.

Lemma best_seen_shares_prob_witness :
  exists s',
    exists_in_frame InVideoDetected_class two_frames (Some (seen_with 0.9))
      (Some (frame_id 1)) 3
    = Ok s'
    /\ (gtb 0.9 (held two_frames s') = true -> prob s' = 0.9%float)
    /\ (gtb 0.9 (held two_frames s') = false -> prob s' = held two_frames s')
    /\ forall q,
         exists s'',
           exists_in_frame InVideoDetected_class (set_prob q two_frames)
             (Some (seen_with 0.9)) (Some (frame_id 1)) 3
           = Ok s''
           /\ notification_state s'' = notification_state s'.
Proof.
  apply (best_seen_shares_prob InVideoDetected_class two_frames (seen_with 0.9)
           (frame_id 1) 3%float 0.9%float).
  - split; [reflexivity | discriminate].
  - reflexivity.
  - reflexivity.
Defined.

End VideoNotifyProps.

(** * The ensemble and the fusion *)

Module DetectorProps.
Import Detector DetectorSpec DetectorSamples.

(** *** Doubles *)

Lemma shr_1_nonneg mrs : (0 <= shr_m mrs)%Z -> (0 <= shr_m (shr_1 mrs))%Z.
Proof.
  destruct mrs as [m r s]. cbn [shr_m]. intros H.
  destruct m as [| [p | p |] | p]; cbn; lia.
Qed.

Lemma iter_shr_1_nonneg p :
  forall mrs, (0 <= shr_m mrs)%Z -> (0 <= shr_m (iter_pos shr_1 p mrs))%Z.
Proof.
  induction p as [p IH | p IH |]; intros mrs H; cbn [iter_pos].
  - apply IH, IH, shr_1_nonneg, H.
  - apply IH, IH, H.
  - apply shr_1_nonneg, H.
Qed.

Lemma shr_fexp_nonneg m e l :
  (0 <= m)%Z -> (0 <= shr_m (fst (shr_fexp prec emax m e l)))%Z.
Proof.
  intros H. unfold shr_fexp, shr.
  assert (Hm : shr_m (shr_record_of_loc m l) = m) by (destruct l as [| []]; reflexivity).
  destruct (fexp prec emax (Zdigits2 m + e) - e)%Z; cbn [fst];
    try (rewrite Hm; exact H).
  apply iter_shr_1_nonneg. rewrite Hm. exact H.
Qed.

Lemma round_nearest_even_nonneg m l :
  (0 <= m)%Z -> (0 <= round_nearest_even m l)%Z.
Proof.
  intros H. unfold round_nearest_even.
  destruct l as [| []]; try destruct (Z.even m); lia.
Qed.

Lemma binary_round_aux_number s m e :
  binary_round_aux prec emax s (Zpos m) e loc_Exact <> S754_nan.
Proof.
  unfold binary_round_aux.
  pose proof (shr_fexp_nonneg (Zpos m) e loc_Exact) as H1.
  destruct (shr_fexp prec emax (Zpos m) e loc_Exact) as [mrs' e'].
  cbn [fst] in H1. specialize (H1 ltac:(lia)).
  pose proof (shr_fexp_nonneg
                (round_nearest_even (shr_m mrs') (loc_of_shr_record mrs')) e' loc_Exact
                (round_nearest_even_nonneg _ _ H1)) as H2.
  destruct (shr_fexp prec emax _ e' loc_Exact) as [mrs'' e''].
  cbn [fst] in H2.
  destruct (shr_m mrs'') as [| p | p]; try discriminate; [| lia].
  destruct (e'' <=? emax - prec)%Z; discriminate.
Qed.

(** The product of two finite floats that are not negative is a number. *)
Lemma mul_number a b : finite_nonneg a -> finite_nonneg b -> number (a * b).
Proof.
  unfold finite_nonneg, number. rewrite FloatAxioms.mul_spec. unfold SF64mul, SFmul.
  destruct (Prim2SF a) as [sa | sa | | sa ma ea], (Prim2SF b) as [sb | sb | | sb mb eb];
    intros Ha Hb; try contradiction; try discriminate.
  apply binary_round_aux_number.
Qed.

Lemma SFmul_comm x y : SFmul prec emax x y = SFmul prec emax y x.
Proof.
  destruct x as [sx | sx | | sx mx ex], y as [sy | sy | | sy my ey]; cbn;
    try reflexivity; try (now rewrite xorb_comm).
  now rewrite xorb_comm, Pos.mul_comm, Z.add_comm.
Qed.

(** Multiplication of doubles is commutative. *)
Lemma mul_comm a b : (a * b = b * a)%float.
Proof.
  apply Prim2SF_inj. rewrite !FloatAxioms.mul_spec. apply SFmul_comm.
Qed.

Lemma Prim2SF_zero : Prim2SF 0 = S754_zero false.
Proof. reflexivity. Qed.

Lemma Prim2SF_one : Prim2SF 1 = S754_finite false 4503599627370496 (-52).
Proof. reflexivity. Qed.

(** For a number, [p <= 0] fails exactly when [p > 0] holds. *)
Lemma number_positive p :
  number p -> ((p <=? 0)%float = false <-> gtb p 0 = true).
Proof.
  unfold number, gtb. rewrite FloatAxioms.leb_spec, FloatAxioms.ltb_spec, Prim2SF_zero.
  unfold SFleb, SFltb.
  destruct (Prim2SF p) as [s | s | | s m e]; cbn; intros H;
    try (destruct s); cbn; try tauto; try (split; congruence).
Qed.

(** [max(0, min(1, x))] is 0, 1, or [x] itself when [0 < x < 1]. *)
Lemma clamp01_cases x :
  clamp01 x = 0%float \/ clamp01 x = 1%float
  \/ (clamp01 x = x /\ gtb x 0 = true /\ (x <? 1)%float = true).
Proof.
  unfold clamp01, py_max, py_min, gtb.
  destruct (x <? 1)%float eqn:H1.
  - destruct (0 <? x)%float eqn:H0; auto.
  - right. left. reflexivity.
Qed.

Lemma clamp01_finite_nonneg x : finite_nonneg (clamp01 x).
Proof.
  destruct (clamp01_cases x) as [-> | [-> | (-> & H0 & H1)]].
  - exact I.
  - reflexivity.
  - unfold gtb in H0. rewrite FloatAxioms.ltb_spec in H0, H1.
    rewrite Prim2SF_zero in H0. rewrite Prim2SF_one in H1.
    unfold finite_nonneg, SFltb in *.
    destruct (Prim2SF x) as [s | s | | s m e].
    + exact I.
    + cbn in H0, H1. destruct s; discriminate.
    + discriminate.
    + cbn in H0. destruct s; [discriminate | reflexivity].
Qed.

(** [max(0, min(1, x))] lies between 0 and 1, also when [x] is NaN. *)
Lemma clamp01_range x :
  (0 <=? clamp01 x)%float = true /\ (clamp01 x <=? 1)%float = true.
Proof.
  destruct (clamp01_cases x) as [-> | [-> | (-> & H0 & H1)]].
  - split; reflexivity.
  - split; reflexivity.
  - unfold gtb in H0.
    rewrite FloatAxioms.ltb_spec in H0, H1. rewrite !FloatAxioms.leb_spec.
    unfold SFltb in H0, H1. unfold SFleb.
    destruct (SFcompare (Prim2SF 0) (Prim2SF x)) as [[| |] |]; try discriminate.
    destruct (SFcompare (Prim2SF x) (Prim2SF 1)) as [[| |] |]; try discriminate.
    split; reflexivity.
Qed.

Lemma finite_nonneg_number x : finite_nonneg x -> number x.
Proof.
  unfold finite_nonneg, number. destruct (Prim2SF x); congruence || tauto.
Qed.

(** *** The loader *)

Lemma load_one_keeps_label_space clfi a new cnames cstats new' :
  class_names new = Some cnames -> class_stats new = Some cstats ->
  load_one clfi a new = Ok new' ->
  class_names new' = Some cnames /\ class_stats new' = Some cstats
  /\ artifact_class_names a = cnames /\ artifact_class_stats a = cstats.
Proof.
  intros Hn Hs. unfold load_one. rewrite Hn, Hs.
  destruct (describe clfi (artifact_clf a)) as [size name].
  destruct (list_eq_dec string_dec (artifact_class_names a) cnames) as [En | En];
    cbn [bind]; [| discriminate].
  destruct (list_eq_dec class_stat_eq_dec (artifact_class_stats a) cstats) as [Es | Es];
    cbn [bind]; [| discriminate].
  intros H. injection H as <-. cbn. auto.
Qed.

Lemma load_one_first clfi a :
  exists new',
    load_one clfi a new_classifiers = Ok new'
    /\ class_names new' = Some (artifact_class_names a)
    /\ class_stats new' = Some (artifact_class_stats a).
Proof.
  unfold load_one. destruct (describe clfi (artifact_clf a)) as [size name].
  cbn. eexists. repeat split.
Qed.

Lemma load_one_raises clfi a new :
  (exists new', load_one clfi a new = Ok new')
  \/ (exists msg, load_one clfi a new = Raise (RuntimeError msg)).
Proof.
  unfold load_one. destruct (describe clfi (artifact_clf a)) as [size name].
  destruct (class_names new) as [cn |], (class_stats new) as [cs |]; cbn [bind];
    repeat match goal with
           | |- context [list_eq_dec ?d ?x ?y] => destruct (list_eq_dec d x y)
           end; cbn [bind]; eauto.
Qed.

Lemma load_loop_mismatch a0 rest :
  Exists (disagrees a0) rest ->
  forall clfi new,
    class_names new = Some (artifact_class_names a0) ->
    class_stats new = Some (artifact_class_stats a0) ->
    exists msg, load_loop clfi rest new = Raise (RuntimeError msg).
Proof.
  induction rest as [| a rest IH]; intros Hex clfi new Hn Hs.
  - inversion Hex.
  - cbn [load_loop].
    destruct (load_one_raises clfi a new) as [[new' Hok] | [msg Hr]].
    + rewrite Hok. cbn [bind].
      destruct (load_one_keeps_label_space clfi a new _ _ new' Hn Hs Hok)
        as (Hn' & Hs' & En & Es).
      apply IH; auto.
      inversion Hex as [? ? Hd | ? ? Ht]; subst; [| exact Ht].
      destruct Hd as [Hd | Hd]; contradiction.
    + rewrite Hr. cbn [bind]. eauto.
Qed.

(** C4, as the code has it: with [model_dir] set, a directory in which some
    artifact after the first differs from the first in class names or class
    stats makes [load_classifiers] raise a [RuntimeError]; no part of what
    was read is installed and [self.classifiers] still holds the ensemble
    loaded before, but [use_classifiers] has been switched off, so
    [process_frame] classifies nothing until a later load succeeds. *)
Theorem load_mismatch_aborts self a0 rest :
  truthy (model_dir self) = true ->
  Exists (disagrees a0) rest ->
  exists msg,
    load_classifiers self (a0 :: rest)
    = (Raise (RuntimeError msg), set_use_classifiers false self)
    /\ self_classifiers (snd (load_classifiers self (a0 :: rest))) = self_classifiers self
    /\ use_classifiers (snd (load_classifiers self (a0 :: rest))) = false
    /\ forall fmt ext frame,
         process_frame fmt ext (snd (load_classifiers self (a0 :: rest))) frame
         = Ok ([], []).
Proof.
  intros Hdir Hex.
  assert (Hload : exists msg,
             load_classifiers self (a0 :: rest)
             = (Raise (RuntimeError msg), set_use_classifiers false self)).
  { unfold load_classifiers. rewrite Hdir. cbn [negb load_loop].
    destruct (load_one_first 0 a0) as (new' & Hok & Hn & Hs).
    rewrite Hok. cbn [bind].
    destruct (load_loop_mismatch a0 rest Hex 1 new' Hn Hs) as [msg Hr].
    rewrite Hr. eauto. }
  destruct Hload as [msg Hload]. exists msg. rewrite Hload. cbn [snd].
  repeat split.
Qed.

Lemma load_mismatch_aborts_witness :
  exists msg,
    load_classifiers agreeing mixed_directory
    = (Raise (RuntimeError msg), set_use_classifiers false agreeing)
    /\ self_classifiers (snd (load_classifiers agreeing mixed_directory))
       = self_classifiers agreeing
    /\ use_classifiers (snd (load_classifiers agreeing mixed_directory)) = false
    /\ forall fmt ext frame,
         process_frame fmt ext (snd (load_classifiers agreeing mixed_directory)) frame
         = Ok ([], []).
Proof.
  apply (load_mismatch_aborts agreeing (artifact_svm names stats)
           [artifact_svm ["alice"; "carol"]%string stats]).
  - reflexivity.
  - apply Exists_cons_hd. left. discriminate.
Defined.

(** C4, the counterexample: a detector that classifies with a loaded
    ensemble is told to reload from a directory whose second file disagrees
    with the first.  The call raises, the old ensemble is still in
    [self.classifiers], and the next frame comes back without any verdict:
    the ensemble is not in use any more. *)
Lemma failed_reload_stops_classification :
  (exists ov lbl, process_frame plain one_face agreeing (frame_id 0) = Ok ([ov], [lbl]))
  /\ fst (load_classifiers agreeing mixed_directory)
     = Raise (RuntimeError "Different class names in classifiers")
  /\ self_classifiers (snd (load_classifiers agreeing mixed_directory))
     = self_classifiers agreeing
  /\ process_frame plain one_face (snd (load_classifiers agreeing mixed_directory))
       (frame_id 1)
     = Ok ([], []).
Proof.
  split; [do 2 eexists; vm_compute; reflexivity |].
  split; [vm_compute; reflexivity |].
  split; [reflexivity |].
  reflexivity.
Qed.


(** *** Detection-only mode *)

(** C7, as the code has it: on an empty ensemble [process_output] reports
    not detected (a thin box) with confidence 0, and no label unless debug
    mode adds its summary line; a load that finds no artifact is no error and
    switches [use_classifiers] off, and [process_frame] then never calls
    [process_output]: it returns an empty list of overlays and an empty list
    of labels, whatever the face detector found. *)
Theorem detection_only_mode fmt ext self output bbox frame :
  classifiers (self_classifiers self) = [] ->
  truthy (model_dir self) = true ->
  (exists ov lbl,
     process_output fmt self output bbox = Ok (ov, lbl, 0%float)
     /\ thin ov = true
     /\ (debug self = false -> lbl = None)
     /\ (debug self = true ->
         exists l, lbl = Some l /\ label l = "Summary: not detected"%string))
  /\ load_classifiers self [] = (Ok tt, set_use_classifiers false self)
  /\ process_frame fmt ext (set_use_classifiers false self) frame = Ok ([], []).
Proof.
  intros Hempty Hdir. split; [| split].
  - unfold process_output. rewrite Hempty. cbn [score_loop bind].
    destruct (debug self); cbn; do 2 eexists;
      (split; [reflexivity |]); (split; [reflexivity |]); split;
      intros H; try discriminate; eauto.
  - unfold load_classifiers. rewrite Hdir. reflexivity.
  - reflexivity.
Qed.

Lemma detection_only_mode_witness :
  (exists ov lbl,
     process_output plain fresh embedding box = Ok (ov, lbl, 0%float)
     /\ thin ov = true
     /\ (debug fresh = false -> lbl = None)
     /\ (debug fresh = true ->
         exists l, lbl = Some l /\ label l = "Summary: not detected"%string))
  /\ load_classifiers fresh [] = (Ok tt, set_use_classifiers false fresh)
  /\ process_frame plain one_face (set_use_classifiers false fresh) (frame_id 0)
     = Ok ([], []).
Proof.
  apply (detection_only_mode plain one_face fresh embedding box (frame_id 0));
    reflexivity.
Defined.

(** C7, the counterexample: no artifact is found, the face detector finds
    one box in the frame, and [process_frame] returns no box at all. *)
Lemma detection_only_returns_no_boxes :
  load_classifiers fresh [] = (Ok tt, fresh)
  /\ detect_faces one_face (frame_id 0) (threshold fresh) = [box]
  /\ process_frame plain one_face fresh (frame_id 0) = Ok ([], []).
Proof. repeat split. Qed.

(** *** Shape mismatch *)

Lemma nth_error_remove_nth_lt {A : Type} (l : list A) :
  forall i j, j < i -> nth_error (remove_nth i l) j = nth_error l j.
Proof.
  induction l as [| x l IH]; intros i j H; [reflexivity |].
  destruct i as [| i]; [lia |]. destruct j as [| j]; [reflexivity |].
  cbn. apply IH. lia.
Qed.

Lemma nth_error_remove_nth_ge {A : Type} (l : list A) :
  forall i j, i <= j -> nth_error (remove_nth i l) j = nth_error l (S j).
Proof.
  induction l as [| x l IH]; intros i j H.
  - cbn. now destruct j.
  - destruct i as [| i]; [reflexivity |]. destruct j as [| j]; [lia |].
    cbn [remove_nth nth_error]. apply IH. lia.
Qed.

Lemma remove_nth_app {A : Type} (pre : list A) x post :
  remove_nth (List.length pre) (pre ++ x :: post) = pre ++ post.
Proof. induction pre as [| y pre IH]; cbn; [reflexivity | now rewrite IH]. Qed.

Section Skip.

Variable fmt : Printf.

(** A turn of the loop reads the ensemble through its label space and
    through the size and the name at its own index. *)
Lemma score_classifier_ext cs cs' dbg output i i' clf acc :
  class_names cs = class_names cs' ->
  class_stats cs = class_stats cs' ->
  nth_error (embedding_sizes cs) i = nth_error (embedding_sizes cs') i' ->
  nth_error (classifier_names cs) i = nth_error (classifier_names cs') i' ->
  score_classifier fmt cs dbg output i clf acc
  = score_classifier fmt cs' dbg output i' clf acc.
Proof.
  intros Hn Hs Hsize Hname.
  unfold score_classifier, contribute, process_index_knn, py_index.
  rewrite Hn, Hs, Hsize, Hname. reflexivity.
Qed.

Lemma score_loop_ext cs cs' dbg output clfs :
  class_names cs = class_names cs' ->
  class_stats cs = class_stats cs' ->
  forall k k' acc,
    (forall j, j < List.length clfs ->
       nth_error (embedding_sizes cs) (k + j) = nth_error (embedding_sizes cs') (k' + j)
       /\ nth_error (classifier_names cs) (k + j)
          = nth_error (classifier_names cs') (k' + j)) ->
    score_loop fmt cs dbg output k clfs acc
    = score_loop fmt cs' dbg output k' clfs acc.
Proof.
  intros Hn Hs. induction clfs as [| clf clfs IH]; intros k k' acc H; [reflexivity |].
  cbn [score_loop].
  destruct (H 0 ltac:(cbn; lia)) as [H1 H2]. rewrite !Nat.add_0_r in H1, H2.
  rewrite (score_classifier_ext cs cs' dbg output k k' clf acc Hn Hs H1 H2).
  destruct (score_classifier fmt cs' dbg output k' clf acc) as [acc' | e];
    cbn [bind]; [| reflexivity].
  apply IH. intros j Hj.
  specialize (H (S j) ltac:(cbn; lia)).
  now rewrite <- !plus_n_Sm in H.
Qed.

Lemma score_loop_app cs dbg output l1 l2 :
  forall k acc,
    score_loop fmt cs dbg output k (l1 ++ l2) acc
    = bind (score_loop fmt cs dbg output k l1 acc)
        (fun a => score_loop fmt cs dbg output (k + List.length l1) l2 a).
Proof.
  induction l1 as [| clf l1 IH]; intros k acc.
  - cbn. now rewrite Nat.add_0_r.
  - cbn [app score_loop List.length].
    destruct (score_classifier fmt cs dbg output k clf acc) as [acc' | e];
      cbn [bind]; [| reflexivity].
    rewrite IH. now rewrite <- plus_n_Sm.
Qed.

(** The turn of a classifier whose embedding size is not the length of the
    embedding leaves the variables of the loop as they are. *)
Lemma score_classifier_mismatch cs dbg output i clf size acc :
  nth_error (embedding_sizes cs) i = Some size ->
  List.length output <> size ->
  score_classifier fmt cs dbg output i clf acc = Ok acc.
Proof.
  intros Hsize Hne. unfold score_classifier, py_index. rewrite Hsize. cbn [bind].
  apply Nat.eqb_neq in Hne. rewrite Hne. reflexivity.
Qed.

End Skip.

(** The ensemble with the stranger gives the verdict of the two classifiers
    that fit: detected, with a label. *)
Example stranger_still_scored :
  process_output plain with_stranger embedding box
  = process_output plain agreeing embedding box
  /\ exists ov lbl conf,
       process_output plain with_stranger embedding box = Ok (ov, Some lbl, conf)
       /\ thin ov = false
       /\ label lbl = "alice"%string.
Proof.
  split; [vm_compute; reflexivity |].
  do 3 eexists. split; [vm_compute; reflexivity |]. split; reflexivity.
Qed.

(** *** Fusion *)

Lemma rule_value_number p : rule_value p -> number p.
Proof.
  intros [[x ->] | (x & y & ->)].
  - apply finite_nonneg_number, clamp01_finite_nonneg.
  - apply mul_number; apply clamp01_finite_nonneg.
Qed.

Lemma nodup_single (l : list nat) x :
  l <> [] -> (forall y, In y l -> y = x) -> nodup Nat.eq_dec l = [x].
Proof.
  induction l as [| a l IH]; intros Hne Hall; [congruence |].
  assert (a = x) as -> by (apply Hall; now left).
  destruct l as [| b l]; [reflexivity |].
  assert (Hl : nodup Nat.eq_dec (b :: l) = [x]).
  { apply IH; [discriminate |]. intros y Hy. apply Hall. now right. }
  cbn [nodup]. destruct (in_dec Nat.eq_dec x (b :: l)) as [Hin | Hnin].
  - exact Hl.
  - exfalso. apply Hnin. left. apply Hall. right. now left.
Qed.

(** [len(set(l)) == 1] says that [l] is not empty and holds one value. *)
Lemma one_distinct (l : list nat) :
  Nat.eqb (List.length (nodup Nat.eq_dec l)) 1 = true <-> l <> [] /\ same_class l.
Proof.
  rewrite Nat.eqb_eq. split.
  - intros H. split; [intros ->; discriminate H |].
    destruct (nodup Nat.eq_dec l) as [| x [| y r]] eqn:Hn; try discriminate H.
    assert (Hx : forall i, In i l -> i = x).
    { intros i Hi. apply (nodup_In Nat.eq_dec) in Hi. rewrite Hn in Hi.
      destruct Hi as [-> | []]. reflexivity. }
    intros i j Hi Hj. rewrite (Hx i Hi), (Hx j Hj). reflexivity.
  - intros [Hne Hsame]. destruct l as [| x l]; [congruence |].
    rewrite (nodup_single (x :: l) x Hne); [reflexivity |].
    intros y Hy. apply Hsame; [exact Hy | now left].
Qed.

Lemma all_positive (ps : list float) :
  Forall rule_value ps ->
  (forallb (fun p => negb (p <=? 0)%float) ps = true <-> Forall positive ps).
Proof.
  induction 1 as [| p ps Hp _ IH]; cbn [forallb].
  - split; auto.
  - rewrite andb_true_iff, IH, negb_true_iff.
    rewrite (number_positive p (rule_value_number p Hp)).
    split.
    + intros [H1 H2]. now constructor.
    + intros H. inversion H; subst. auto.
Qed.

Section Fusion.

Variable fmt : Printf.

Lemma knn_prob_rule first_cnt cnt d p :
  knn_prob first_cnt cnt d = Ok p -> rule_value p.
Proof.
  unfold knn_prob. destruct (cnt =? 0)%Z; [discriminate |].
  intros H. injection H as <-. right. eauto.
Qed.

Lemma process_index_knn_rule cs clf output best p dbg :
  process_index_knn fmt cs clf output best = Ok (p, dbg) -> rule_value p.
Proof.
  unfold process_index_knn.
  destruct (py_index_opt (class_stats cs) best) as [stat |]; cbn [bind]; [| discriminate].
  destruct (kneighbors clf output (embeddings stat)) as [[ds idxs] |];
    cbn [bind]; [| discriminate].
  destruct (py_index ds 0) as [d |]; cbn [bind]; [| discriminate].
  destruct (first_cnt_loop (_y clf) best idxs 0) as [n |]; cbn [bind]; [| discriminate].
  destruct (knn_prob n (embeddings stat) d) as [q |] eqn:Hq; cbn [bind]; [| discriminate].
  intros H. injection H as <- _. eapply knn_prob_rule, Hq.
Qed.

Lemma process_index_svm_rule predictions best p dbg :
  process_index_svm fmt predictions best = Ok (p, dbg) -> rule_value p.
Proof.
  unfold process_index_svm, svm_prob.
  destruct (py_index predictions best) as [q |]; cbn [bind]; [| discriminate].
  intros H. injection H as <- _. left. eauto.
Qed.

Lemma contribute_recorded cs dbg clfi best pi acc acc' :
  (forall p d, pi = Ok (p, d) -> rule_value p) ->
  recorded dbg acc ->
  contribute fmt cs dbg clfi best pi acc = Ok acc' ->
  recorded dbg acc'.
Proof.
  intros Hpi (Hlen & Hrule & Hflag & Hlab). unfold contribute.
  destruct (py_index_opt (class_names cs) best) as [name |]; cbn [bind]; [| discriminate].
  destruct pi as [[p d] |]; cbn [bind]; [| discriminate].
  destruct (py_index (classifier_names cs) clfi) as [cname |]; cbn [bind]; [| discriminate].
  intros H. injection H as <-. unfold recorded. cbn.
  split; [rewrite !length_app; cbn; lia |].
  split; [apply Forall_app; split; [exact Hrule | constructor; eauto] |].
  split.
  - rewrite forallb_app. cbn. rewrite <- Hflag.
    destruct (p <=? 0)%float; cbn; [now rewrite andb_false_r | now rewrite andb_true_r].
  - intros -> _. destruct (label_strings acc); discriminate.
Qed.

Lemma score_classifier_recorded cs dbg output clfi clf acc acc' :
  recorded dbg acc ->
  score_classifier fmt cs dbg output clfi clf acc = Ok acc' ->
  recorded dbg acc'.
Proof.
  intros Hrec. unfold score_classifier.
  destruct (py_index (embedding_sizes cs) clfi) as [size |]; cbn [bind]; [| discriminate].
  destruct (if Nat.eqb (List.length output) size then predict_proba clf output
            else Raise ValueError) as [predictions | e].
  - destruct (argmax predictions) as [best |]; cbn [bind]; [| discriminate].
    destruct (clf_type clf).
    + apply contribute_recorded; [| exact Hrec].
      intros p d. apply process_index_svm_rule.
    + apply contribute_recorded; [| exact Hrec].
      intros p d. apply process_index_knn_rule.
    + intros H. injection H as <-. exact Hrec.
  - destruct e; try discriminate. intros H. injection H as <-. exact Hrec.
Qed.

Lemma score_loop_recorded cs dbg output clfs :
  forall clfi acc acc',
    recorded dbg acc ->
    score_loop fmt cs dbg output clfi clfs acc = Ok acc' ->
    recorded dbg acc'.
Proof.
  induction clfs as [| clf clfs IH]; intros clfi acc acc' Hrec; cbn [score_loop].
  - intros H. injection H as <-. exact Hrec.
  - destruct (score_classifier fmt cs dbg output clfi clf acc) as [acc1 |] eqn:H1;
      cbn [bind]; [| discriminate].
    apply IH. eapply score_classifier_recorded; eauto.
Qed.

Lemma start_recorded dbg : recorded dbg start.
Proof.
  unfold recorded. cbn. repeat split; auto; congruence.
Qed.

End Fusion.

(** Two classifiers that are both certain, of different classes: not
    detected, confidence 0. *)
Example split_vote_not_detected :
  probs (scored split_vote embedding) = [1; 1]%float
  /\ detected_indices (scored split_vote embedding) = [0; 1]
  /\ exists ov,
       process_output plain split_vote embedding box = Ok (ov, None, 0%float)
       /\ thin ov = true.
Proof.
  split; [vm_compute; reflexivity |]. split; [vm_compute; reflexivity |].
  eexists. split; [vm_compute; reflexivity | reflexivity].
Qed.


(** *** The rule of each kind *)

Lemma argmax_loop_lt ip :
  forall mp max_ind i,
    max_ind < i -> argmax_loop mp max_ind i ip < i + List.length ip.
Proof.
  induction ip as [| x ip IH]; intros mp max_ind i H; cbn [argmax_loop List.length].
  - lia.
  - destruct (negb (x <=? mp)%float).
    + destruct (is_nan x); [lia |].
      specialize (IH x i (S i) ltac:(lia)). lia.
    + specialize (IH mp max_ind (S i) ltac:(lia)). lia.
Qed.

(** The index [np.argmax] returns is an index of the row. *)
Lemma argmax_in_row row best :
  argmax row = Ok best -> exists p, py_index row best = Ok p.
Proof.
  destruct row as [| x ip]; [discriminate |]. cbn [argmax].
  intros H. injection H as <-.
  assert (Hlt : (if is_nan x then 0 else argmax_loop x 0 1 ip) < List.length (x :: ip)).
  { destruct (is_nan x); cbn [List.length]; [lia |].
    pose proof (argmax_loop_lt ip x 0 1 ltac:(lia)). lia. }
  unfold py_index.
  destruct (nth_error (x :: ip) _) as [p |] eqn:Hn; [eauto |].
  apply nth_error_None in Hn. lia.
Qed.

Lemma first_cnt_loop_spec y best idxs :
  Forall (fun i => i < List.length y) idxs ->
  forall n,
    first_cnt_loop y best idxs n
    = Ok (n + Z.of_nat (first_run best (neighbor_classes y idxs)))%Z.
Proof.
  induction 1 as [| i idxs Hi _ IH]; intros n; cbn [first_cnt_loop neighbor_classes map first_run].
  - now rewrite Z.add_0_r.
  - unfold py_index. rewrite (nth_error_nth' y 0 Hi). cbn [bind].
    destruct (Nat.eqb (nth i y 0) best).
    + rewrite IH. apply f_equal. fold (neighbor_classes y idxs). lia.
    + now rewrite Z.add_0_r.
Qed.

Section Rules.

Variable fmt : Printf.

(** C2, as the code has it: for a kNN model, with [k > 0] the training count
    of the predicted class, [d] the distance of the nearest of the [k]
    neighbours and [first_run] the leading run of neighbours of the predicted
    class, [process_index] returns the probability
    [clamp(0,1, 2*first_run/k - 0.5) * clamp(0,1, 2.5 - 3*d)] computed in
    doubles; for [k = 10], [first_run = 7], [d = 0.4] that is
    0.8999999999999999, the double next below 0.9. *)
Theorem knn_rule cs clf output best k d rest neighbors_indices :
  py_index_opt (class_stats cs) best = Ok {| embeddings := k |} ->
  (0 < k)%Z ->
  kneighbors clf output k = Ok (d :: rest, neighbors_indices) ->
  Forall (fun i => i < List.length (_y clf)) neighbors_indices ->
  (exists label_debug,
     process_index_knn fmt cs clf output best
     = Ok ((clamp01 (float_of_Z
                       (2 * Z.of_nat (first_run best
                                        (neighbor_classes (_y clf) neighbors_indices)))
                     / float_of_Z k - 0.5)
            * clamp01 (2.5 - 3 * d))%float,
           label_debug))
  /\ (clamp01 (float_of_Z (2 * 7) / float_of_Z 10 - 0.5) * clamp01 (2.5 - 3 * 0.4)
      = 0.89999999999999991)%float
  /\ next_up 0.89999999999999991 = 0.9%float.
Proof.
  intros Hk Hpos Hn Hy. split; [| split; vm_compute; reflexivity].
  unfold process_index_knn. rewrite Hk. cbn [bind embeddings]. rewrite Hn.
  cbn [bind py_index nth_error].
  rewrite (first_cnt_loop_spec _ best _ Hy 0). cbn [bind Z.add].
  unfold knn_prob.
  destruct (k =? 0)%Z eqn:Hz; [apply Z.eqb_eq in Hz; lia |].
  cbn [bind]. rewrite (mul_comm 3 d). eauto.
Qed.

(** C3: for an SVM whose embedding size fits, the turn of the loop records
    the arg-max class and the probability [clamp(0,1, 10*p)], where [p] is
    the probability [predict_proba] gives that class; 0.05 gives 0.5, 0.12
    gives 1 and 0 gives 0. *)
Theorem svm_rule cs dbg output clfi clf acc predictions best name cname :
  clf_type clf = SVC ->
  py_index (embedding_sizes cs) clfi = Ok (List.length output) ->
  predict_proba clf output = Ok predictions ->
  argmax predictions = Ok best ->
  py_index_opt (class_names cs) best = Ok name ->
  py_index (classifier_names cs) clfi = Ok cname ->
  (exists p acc',
     py_index predictions best = Ok p
     /\ score_classifier fmt cs dbg output clfi clf acc = Ok acc'
     /\ detected_indices acc' = detected_indices acc ++ [best]
     /\ probs acc' = probs acc ++ [clamp01 (10 * p)%float])
  /\ clamp01 (10 * 0.05)%float = 0.5%float
  /\ clamp01 (10 * 0.12)%float = 1%float
  /\ clamp01 (10 * 0)%float = 0%float.
Proof.
  intros Hty Hsize Hpred Hbest Hname Hcname.
  split; [| repeat split; vm_compute; reflexivity].
  destruct (argmax_in_row predictions best Hbest) as [p Hp].
  unfold score_classifier. rewrite Hsize. cbn [bind].
  rewrite Nat.eqb_refl, Hpred, Hbest. cbn [bind]. rewrite Hty.
  unfold contribute, process_index_svm. rewrite Hname, Hp, Hcname. cbn [bind].
  exists p. eexists. split; [reflexivity |]. split; [reflexivity |].
  cbn [detected_indices probs]. split; [reflexivity |].
  unfold svm_prob. now rewrite (mul_comm 10 p).
Qed.

End Rules.

Lemma knn_rule_witness :
  (exists label_debug,
     process_index_knn plain (self_classifiers knn_only) knn embedding 0
     = Ok ((clamp01 (float_of_Z
                       (2 * Z.of_nat (first_run 0 (neighbor_classes (_y knn) nearest)))
                     / float_of_Z 10 - 0.5)
            * clamp01 (2.5 - 3 * 0.4))%float,
           label_debug))
  /\ (clamp01 (float_of_Z (2 * 7) / float_of_Z 10 - 0.5) * clamp01 (2.5 - 3 * 0.4)
      = 0.89999999999999991)%float
  /\ next_up 0.89999999999999991 = 0.9%float.
Proof.
  apply (knn_rule plain (self_classifiers knn_only) knn embedding 0 10 0.4%float
           farther nearest).
  - reflexivity.
  - lia.
  - reflexivity.
  - repeat constructor.
Defined.

(** C2, the counterexample: ten training embeddings of the predicted class,
    a leading run of seven and the nearest neighbour at 0.4; the probability
    that [process_output] computes is not 0.9. *)
Lemma knn_rule_not_exactly_09 :
  py_index_opt (class_stats (self_classifiers knn_only)) 0 = Ok {| embeddings := 10 |}
  /\ kneighbors knn embedding 10 = Ok (0.4%float :: farther, nearest)
  /\ first_run 0 (neighbor_classes (_y knn) nearest) = 7
  /\ probs (scored knn_only embedding) = [0.89999999999999991%float]
  /\ (exists ov lbl,
        process_output plain knn_only embedding box
        = Ok (ov, lbl, 0.89999999999999991%float))
  /\ 0.89999999999999991%float <> 0.9%float.
Proof.
  split; [reflexivity |]. split; [reflexivity |]. split; [reflexivity |].
  split; [vm_compute; reflexivity |].
  split; [do 2 eexists; vm_compute; reflexivity |].
  intros H. apply (f_equal (fun x => (x =? 0.9)%float)) in H.
  vm_compute in H. discriminate.
Qed.

Lemma svm_rule_witness :
  (exists p acc',
     py_index [0.05; 0.01]%float 0 = Ok p
     /\ score_classifier plain (self_classifiers agreeing) false embedding 1
          (svm [0.05; 0.01]%float) start = Ok acc'
     /\ detected_indices acc' = detected_indices start ++ [0]
     /\ probs acc' = probs start ++ [clamp01 (10 * p)%float])
  /\ clamp01 (10 * 0.05)%float = 0.5%float
  /\ clamp01 (10 * 0.12)%float = 1%float
  /\ clamp01 (10 * 0)%float = 0%float.
Proof.
  apply (svm_rule plain (self_classifiers agreeing) false embedding 1
           (svm [0.05; 0.01]%float) start [0.05; 0.01]%float 0
           "alice"%string "SVM"%string);
    reflexivity.
Defined.

End DetectorProps.

(** * More on the temporal debouncer *)

Module VideoNotifyMore.
Import VideoNotify VideoNotifySpec Samples MoreSpec MoreSamples VideoNotifyProps.

(** *** The window *)

(** The pruning loop drops a prefix of samples that are all older than the
    period, keeps the newest sample, and stops at a sample that is not. *)
Lemma prune_prefix period now ts :
  forall fr b, List.length fr = List.length ts ->
  exists n,
    prune period now fr ts b
    = Ok (skipn n fr, skipn n ts, if Nat.eqb n 0 then b else true)
    /\ (ts <> [] -> n < List.length ts)
    /\ Forall (fun t => gtb (now - t)%float (float_of_Z period) = true) (firstn n ts)
    /\ trimmed period now (skipn n ts).
Proof.
  induction ts as [| t0 rest IH]; intros fr b Hlen.
  - exists 0. cbn. repeat split; auto. congruence.
  - destruct rest as [| t1 rest'].
    + exists 0. cbn. repeat split; auto.
    + rewrite prune_unfold.
      destruct (gtb (now - t0) (float_of_Z period)) eqn:Hgt.
      * destruct fr as [| x fr']; [discriminate Hlen |].
        destruct (IH fr' true) as (n & Hp & Hn & Hold & Htrim).
        { simpl in Hlen |- *. lia. }
        exists (S n). cbn [skipn firstn Nat.eqb]. rewrite Hp.
        split; [now destruct (Nat.eqb n 0) |].
        split; [intros _; specialize (Hn ltac:(discriminate)); simpl in Hn |- *; lia |].
        split; [constructor; assumption | exact Htrim].
      * exists 0. cbn [skipn firstn Nat.eqb]. repeat split; auto.
        intros _. simpl. lia.
Qed.

(** X3: a call on a prepared instance appends the new sample and then drops
    a prefix of the window: every dropped sample is more than
    [notify_period] older than [now], the new sample is never dropped, and
    unless the new sample is the only one left the oldest kept sample is not
    more than [notify_period] older than [now]. *)
Theorem window_after_call cls s p f now :
  consistent s -> done s = false ->
  exists s' n,
    exists_in_frame cls s p f now = Ok s'
    /\ n <= List.length (in_frames s)
    /\ in_frames s' = skipn n (in_frames s ++ [bit p])
    /\ in_frames_ts s' = skipn n (in_frames_ts s ++ [now])
    /\ Forall (fun t => gtb (now - t)%float (float_of_Z (notify_period cls)) = true)
         (firstn n (in_frames_ts s))
    /\ trimmed (notify_period cls) now (in_frames_ts s').
Proof.
  intros Hcons Hd.
  destruct (exists_in_frame_spec cls s p f now Hd Hcons)
    as (s' & b & Hp & He & _).
  destruct Hcons as [Hlen _].
  destruct (prune_prefix (notify_period cls) now (in_frames_ts s ++ [now])
              (in_frames s ++ [bit p]) false)
    as (n & Hp' & Hn & Hold & Htrim).
  { rewrite !length_app. simpl. lia. }
  rewrite Hp in Hp'. injection Hp' as E1 E2 _.
  specialize (Hn ltac:(now destruct (in_frames_ts s))).
  rewrite length_app in Hn. simpl in Hn.
  exists s', n. split; [exact He |]. split; [lia |].
  split; [exact E1 |]. split; [exact E2 |]. split.
  - rewrite firstn_app in Hold. apply Forall_app in Hold. destruct Hold as [Hold _].
    exact Hold.
  - rewrite E2. exact Htrim.
Qed.

Lemma window_after_call_witness :
  exists s' n,
    exists_in_frame InVideoDetected_class two_frames (Some seen) (Some (frame_id 2)) 4
    = Ok s'
    /\ n <= List.length (in_frames two_frames)
    /\ in_frames s' = skipn n (in_frames two_frames ++ [bit (Some seen)])
    /\ in_frames_ts s' = skipn n (in_frames_ts two_frames ++ [4%float])
    /\ Forall (fun t => gtb (4 - t)%float
                          (float_of_Z (notify_period InVideoDetected_class)) = true)
         (firstn n (in_frames_ts two_frames))
    /\ trimmed (notify_period InVideoDetected_class) 4 (in_frames_ts s').
Proof.
  apply (window_after_call InVideoDetected_class two_frames (Some seen)
           (Some (frame_id 2)) 4%float).
  - split; [reflexivity | discriminate].
  - reflexivity.
Defined.

(** *** Streams of calls *)

(** What the three methods keep, a stream of calls keeps. *)
Lemma run_preserves cls (P : InVideoDetected -> Prop) :
  (forall s, P s -> P (prepare s)) ->
  (forall s, P s -> P (snd (make_notify s))) ->
  (forall s p f now s', P s -> exists_in_frame cls s p f now = Ok s' -> P s') ->
  forall calls s bs s', P s -> run cls s calls = Ok (bs, s') -> P s'.
Proof.
  intros Hprep Hmake Hex.
  induction calls as [| c calls IH]; intros s bs s' HP; cbn [run].
  - intros H. injection H as _ <-. exact HP.
  - destruct c as [| p f now |].
    + apply IH, Hprep, HP.
    + destruct (exists_in_frame cls s p f now) as [s1 |] eqn:He; cbn [bind];
        [| discriminate].
      apply IH. eapply Hex; eauto.
    + specialize (Hmake s HP). destruct (make_notify s) as [b s1]. cbn [snd] in Hmake.
      destruct (run cls s1 calls) as [[bs1 s2] |] eqn:Hr; cbn [bind]; [| discriminate].
      intros H. injection H as _ <-. exact (IH s1 bs1 s2 Hmake Hr).
Qed.

Lemma run_answers cls calls :
  forall s bs s', run cls s calls = Ok (bs, s') -> List.length bs = polls calls.
Proof.
  induction calls as [| c calls IH]; intros s bs s'; cbn [run polls].
  - intros H. now injection H as <- _.
  - destruct c as [| p f now |].
    + apply IH.
    + destruct (exists_in_frame cls s p f now) as [s1 |]; cbn [bind]; [| discriminate].
      apply IH.
    + destruct (make_notify s) as [b s1].
      destruct (run cls s1 calls) as [[bs1 s2] |] eqn:Hr; cbn [bind]; [| discriminate].
      intros H. injection H as <- _. cbn. f_equal. eapply IH; eauto.
Qed.

(** X1: on an instance as [__init__] leaves it, no stream of calls of
    [prepare], [exists_in_frame] and [make_notify] raises; it yields one
    answer per call of [make_notify] and leaves the two window lists of one
    length and, if notified, with the time of the notification. *)
Theorem fresh_instance_never_raises cls calls :
  exists bs s,
    run cls init calls = Ok (bs, s)
    /\ List.length bs = polls calls
    /\ consistent s.
Proof.
  destruct (run_total cls calls init init_consistent) as (bs & s & Hr & Hc).
  exists bs, s. split; [exact Hr |]. split; [| exact Hc].
  eapply run_answers, Hr.
Qed.

Lemma sum_Z_from (l : list Z) :
  forall a, fold_left Z.add l a = (a + sum_Z l)%Z.
Proof.
  unfold sum_Z. induction l as [| x l IH]; intros a; cbn [fold_left].
  - lia.
  - rewrite IH, (IH (0 + x)%Z). lia.
Qed.

Lemma sum_of_bits (l : list Z) :
  Forall is_bit l -> (0 <= sum_Z l <= Z.of_nat (List.length l))%Z.
Proof.
  induction 1 as [| x l Hx _ IH].
  - cbn. lia.
  - unfold sum_Z in *. cbn [fold_left List.length]. rewrite sum_Z_from.
    unfold sum_Z. destruct Hx as [-> | ->]; lia.
Qed.

Lemma Forall_skipn {A : Type} (P : A -> Prop) (l : list A) :
  forall n, Forall P l -> Forall P (skipn n l).
Proof.
  induction l as [| x l IH]; intros n H; destruct n; cbn; auto.
  inversion H; subst. auto.
Qed.

(** X4: the window of presence bits holds only 0 and 1 along every stream of
    calls on a fresh instance, so the count of frames with a face lies
    between 0 and the number of samples. *)
Theorem window_holds_bits cls calls bs s :
  run cls init calls = Ok (bs, s) ->
  Forall is_bit (in_frames s)
  /\ (0 <= sum_Z (in_frames s) <= Z.of_nat (List.length (in_frames s)))%Z.
Proof.
  intros Hr.
  assert (H : consistent s /\ Forall is_bit (in_frames s)).
  { apply (run_preserves cls (fun s => consistent s /\ Forall is_bit (in_frames s)))
      with (calls := calls) (s := init) (bs := bs); [| | | | exact Hr].
    - intros s0 [[Hl Hk] Hb]. split; [split |]; assumption.
    - intros s0 [[Hl Hk] Hb]. unfold make_notify.
      destruct (notified s0 && notified_awaiting s0); (split; [split |]; assumption).
    - intros s0 p f now s' [Hc Hb] He.
      destruct (done s0) eqn:Hd.
      + unfold exists_in_frame in He. rewrite Hd in He. injection He as <-. auto.
      + destruct (exists_in_frame_spec cls s0 p f now Hd Hc)
          as (s1 & b & Hp & He1 & _ & Hc1 & _).
        rewrite He in He1. injection He1 as <-. split; [exact Hc1 |].
        destruct (prune_prefix (notify_period cls) now (in_frames_ts s0 ++ [now])
                    (in_frames s0 ++ [bit p]) false)
          as (n & Hp' & _).
        { destruct Hc as [Hl _]. rewrite !length_app. simpl. lia. }
        rewrite Hp in Hp'. injection Hp' as E1 _ _. rewrite E1.
        apply Forall_skipn, Forall_app. split; [exact Hb |].
        constructor; [| constructor]. destruct p; [right | left]; reflexivity.
    - split; [apply init_consistent | constructor]. }
  destruct H as [_ Hb]. split; [exact Hb | apply sum_of_bits, Hb].
Qed.

Lemma window_holds_bits_witness :
  Forall is_bit (in_frames (set_done true two_frames))
  /\ (0 <= sum_Z (in_frames (set_done true two_frames))
      <= Z.of_nat (List.length (in_frames (set_done true two_frames))))%Z.
Proof.
  apply (window_holds_bits InVideoDetected_class
           (turn (Some seen) 0 ++ turn (Some seen) 2) [false; false]
           (set_done true two_frames)).
  vm_compute. reflexivity.
Defined.

(** X2: [exists_in_frame] works once per [prepare]: after a call that
    returned, further calls without [prepare] between leave the instance as
    it is, whatever they are given. *)
Theorem once_per_prepare cls s p f now s' p2 f2 now2 :
  exists_in_frame cls s p f now = Ok s' ->
  done s' = true /\ exists_in_frame cls s' p2 f2 now2 = Ok s'.
Proof.
  intros He.
  assert (Hd : done s' = true).
  { unfold exists_in_frame in He. destruct (done s) eqn:Hd.
    - now injection He as <-.
    - destruct (prune _ _ _ _ _) as [[[fr ts] b] |]; cbn [bind] in He; [| discriminate].
      destruct (if b then _ else _) as [s2 |]; cbn [bind] in He; [| discriminate].
      now injection He as <-. }
  split; [exact Hd |]. unfold exists_in_frame. now rewrite Hd.
Qed.

Lemma once_per_prepare_witness :
  done just_notified = true
  /\ exists_in_frame InVideoDetected_class just_notified None None 9 = Ok just_notified.
Proof.
  apply (once_per_prepare InVideoDetected_class two_frames (Some seen)
           (Some (frame_id 2)) 4%float just_notified None None 9%float).
  vm_compute. reflexivity.
Defined.


(** *** Notifications *)

Lemma prune_young period now fr t0 ts b :
  gtb (now - t0)%float (float_of_Z period) = false ->
  prune period now fr (t0 :: ts) b = Ok (fr, t0 :: ts, b).
Proof.
  intros H. destruct ts as [| t1 ts]; [reflexivity |].
  rewrite prune_unfold, H. reflexivity.
Qed.

Lemma absorb_flag p f s :
  not_detected_anymore (absorb p f s) = not_detected_anymore s.
Proof.
  unfold absorb.
  destruct (processed_looks_like p), (processed_prob p), f; simpl;
    try case_if; simpl; auto.
Qed.

(** While the first sample is not older than the period nothing is pruned
    and nothing recomputed: every sample stays in the window, [prob] is
    written by the best-seen rule alone, and the notification fields and
    [not_detected_anymore] stay as they are. *)
Lemma run_untouched cls t0 calls :
  Forall (within_period cls t0) calls ->
  forall s,
    notified s = false -> hd_error (in_frames_ts s) = Some t0 ->
    exists s',
      run cls s calls = Ok (repeat false (polls calls), s')
      /\ in_frames s' = in_frames s ++ map fst (appended (done s) calls)
      /\ in_frames_ts s' = in_frames_ts s ++ map snd (appended (done s) calls)
      /\ prob s' = best_of (done s) (prob s) calls
      /\ notification_state s' = notification_state s
      /\ not_detected_anymore s' = not_detected_anymore s.
Proof.
  induction 1 as [| c calls Hc _ IH]; intros s Hn Hhd.
  - exists s. cbn. rewrite !app_nil_r. repeat split.
  - destruct c as [| p f now |]; cbn [run polls appended best_of].
    + apply (IH (prepare s)); assumption.
    + cbn in Hc. destruct (done s) eqn:Hd.
      * unfold exists_in_frame. rewrite Hd. cbn [bind].
        destruct (IH s Hn Hhd) as (s' & Hr & H1 & H2 & H3 & H4 & H5).
        rewrite Hd in H1, H2, H3. exists s'. cbv iota. tauto.
      * unfold exists_in_frame. rewrite Hd.
        destruct (in_frames_ts s) as [| t ts] eqn:Hts; [discriminate |].
        cbn in Hhd. injection Hhd as ->.
        cbn [app]. rewrite (prune_young _ _ _ _ _ _ Hc). cbn [bind].
        set (s1 := set_window (in_frames s ++ [bit p]) (t0 :: ts ++ [now]) s).
        change (match p with Some _ => 1%Z | None => 0%Z end) with (bit p).
        fold s1.
        set (s3 := match p with Some q => absorb q f s1 | None => s1 end).
        assert (A : in_frames s3 = in_frames s ++ [bit p]
                    /\ in_frames_ts s3 = t0 :: ts ++ [now]
                    /\ prob s3 = best_seen (prob s) p f
                    /\ notification_state s3 = notification_state s
                    /\ not_detected_anymore s3 = not_detected_anymore s).
        { subst s3. destruct p as [q |].
          - destruct (absorb_frame q f s1) as (_ & A2 & A3 & A4).
            rewrite A2, A3, A4, absorb_prob, absorb_flag. auto.
          - destruct f; auto. }
        destruct A as (A1 & A2 & A3 & A4 & A5).
        destruct (IH (set_done true s3)) as (s' & Hr & H1 & H2 & H3 & H4 & H5).
        { unfold notification_state in A4. cbn. congruence. }
        { cbn. now rewrite A2. }
        exists s'. cbv iota. cbn [map fst snd].
        cbn [done set_done in_frames in_frames_ts prob] in H1, H2, H3.
        change (notification_state (set_done true s3)) with (notification_state s3) in H4.
        change (not_detected_anymore (set_done true s3))
          with (not_detected_anymore s3) in H5.
        rewrite A1 in H1. rewrite A2 in H2. rewrite A3 in H3. rewrite A4 in H4.
        rewrite A5 in H5.
        split; [exact Hr |].
        split; [rewrite H1, <- app_assoc; reflexivity |].
        split; [rewrite H2; cbn [app]; rewrite <- app_assoc; reflexivity |].
        tauto.
    + unfold make_notify. rewrite Hn. cbn [andb].
      destruct (IH s Hn Hhd) as (s' & Hr & Hrest).
      rewrite Hr. cbn [bind repeat]. eauto.
Qed.

(** X5: a fresh instance cannot notify before its first sample is more than
    [notify_period] old.  As long as [now - t0 > notify_period] is false in
    every call, [t0] being the time of the first frame, every [make_notify]
    returns [False]; nothing is pruned: the window holds every sample that
    was appended, the first one included; and nothing is recomputed: [prob]
    is what the best-seen rule alone leaves, and [notified],
    [notified_awaiting], [notified_ts] and [not_detected_anymore] are as
    [__init__] set them. *)
Theorem no_notification_in_first_period cls p f t0 calls :
  Forall (within_period cls t0) calls ->
  exists s,
    run cls init (CallExistsInFrame p f t0 :: calls)
    = Ok (repeat false (polls calls), s)
    /\ notified s = false
    /\ in_frames s = map fst (appended false (CallExistsInFrame p f t0 :: calls))
    /\ in_frames_ts s = map snd (appended false (CallExistsInFrame p f t0 :: calls))
    /\ prob s = best_of false 0 (CallExistsInFrame p f t0 :: calls)
    /\ notified_awaiting s = false
    /\ notified_ts s = None
    /\ not_detected_anymore s = false.
Proof.
  intros Hcalls. cbn [run appended best_of]. unfold exists_in_frame.
  cbn [done init in_frames in_frames_ts app prune bind].
  change (match p with Some _ => 1%Z | None => 0%Z end) with (bit p).
  set (s1 := set_window [bit p] [t0] init).
  set (s3 := match p with Some q => absorb q f s1 | None => s1 end).
  assert (A : in_frames s3 = [bit p]
              /\ in_frames_ts s3 = [t0]
              /\ prob s3 = best_seen 0 p f
              /\ notification_state s3 = (false, false, None)
              /\ not_detected_anymore s3 = false).
  { subst s3. destruct p as [q |].
    - destruct (absorb_frame q f s1) as (_ & A2 & A3 & A4).
      rewrite A2, A3, A4, absorb_prob, absorb_flag. auto.
    - destruct f; auto. }
  destruct A as (A1 & A2 & A3 & A4 & A5).
  destruct (run_untouched cls t0 calls Hcalls (set_done true s3))
    as (s & Hr & H1 & H2 & H3 & H4 & H5).
  { unfold notification_state in A4. cbn. congruence. }
  { cbn. now rewrite A2. }
  exists s. split; [exact Hr |].
  cbn [done set_done in_frames in_frames_ts prob] in H1, H2, H3.
  change (notification_state (set_done true s3)) with (notification_state s3) in H4.
  change (not_detected_anymore (set_done true s3)) with (not_detected_anymore s3) in H5.
  rewrite A1 in H1. rewrite A2 in H2. rewrite A3 in H3. rewrite A4 in H4.
  rewrite A5 in H5. unfold notification_state in H4. injection H4 as -> -> ->.
  cbn [map fst snd]. auto 10.
Qed.

Lemma no_notification_in_first_period_witness :
  exists s,
    run InVideoDetected_class init
      (CallExistsInFrame (Some seen) (Some (frame_id 0)) 10
         :: CallMakeNotify :: turn (Some seen) 11 ++ turn (Some seen) 13)
    = Ok (repeat false (polls (CallMakeNotify :: turn (Some seen) 11
                                 ++ turn (Some seen) 13)), s)
    /\ notified s = false
    /\ in_frames s
       = map fst (appended false
                    (CallExistsInFrame (Some seen) (Some (frame_id 0)) 10
                       :: CallMakeNotify :: turn (Some seen) 11 ++ turn (Some seen) 13))
    /\ in_frames_ts s
       = map snd (appended false
                    (CallExistsInFrame (Some seen) (Some (frame_id 0)) 10
                       :: CallMakeNotify :: turn (Some seen) 11 ++ turn (Some seen) 13))
    /\ prob s
       = best_of false 0
           (CallExistsInFrame (Some seen) (Some (frame_id 0)) 10
              :: CallMakeNotify :: turn (Some seen) 11 ++ turn (Some seen) 13)
    /\ notified_awaiting s = false
    /\ notified_ts s = None
    /\ not_detected_anymore s = false.
Proof.
  apply (no_notification_in_first_period InVideoDetected_class (Some seen)
           (Some (frame_id 0)) 10%float
           (CallMakeNotify :: turn (Some seen) 11 ++ turn (Some seen) 13)).
  repeat constructor.
Defined.

(** The three samples of the stream above are all in the window. *)
Example first_period_window :
  map fst (appended false
             (CallExistsInFrame (Some seen) (Some (frame_id 0)) 10
                :: CallMakeNotify :: turn (Some seen) 11 ++ turn (Some seen) 13))
  = [1; 1; 1]%Z
  /\ map snd (appended false
                (CallExistsInFrame (Some seen) (Some (frame_id 0)) 10
                   :: CallMakeNotify :: turn (Some seen) 11 ++ turn (Some seen) 13))
     = [10; 11; 13]%float.
Proof. split; reflexivity. Qed.

(** X6: the end of a notification is noticed only by a call that prunes the
    window.  Such a call, made when [now - notified_ts > stay_notified],
    leaves the instance idle without a notification time if the new mean of
    the window is not above [notify_prob], and otherwise notifies afresh:
    notified at [now], with a notification to fetch.  A call that prunes
    nothing leaves the three notification fields alone. *)
Theorem notification_expires cls s p f now t :
  consistent s -> done s = false ->
  notified s = true -> notified_ts s = Some t ->
  gtb (now - t)%float (stay_notified cls) = true ->
  exists s',
    exists_in_frame cls s p f now = Ok s'
    /\ (List.length (in_frames s') <= List.length (in_frames s) ->
        exists m,
          window_mean (in_frames s') = Ok m
          /\ notification_state s'
             = if gtb m (notify_prob cls)
               then (true, true, Some now)
               else (false, notified_awaiting s, None))
    /\ (List.length (in_frames s') = S (List.length (in_frames s)) ->
        notification_state s' = notification_state s).
Proof.
  intros Hcons Hd Hn Ht Hgt.
  destruct (exists_in_frame_spec cls s p f now Hd Hcons)
    as (s' & b & _ & He & _ & _ & Hb & Hcase).
  exists s'. split; [exact He |]. destruct b.
  - destruct Hcase as (m & Hm & _ & Hns). split.
    + intros _. exists m. split; [exact Hm |]. rewrite Hns.
      unfold notification_state, renotify. rewrite Hn, Ht, Hgt. cbn.
      now rewrite andb_true_r.
    + intros H. assert (List.length (in_frames s') <= List.length (in_frames s))
        by now apply Hb. lia.
  - destruct Hcase as [_ Hns]. split.
    + intros H. apply Hb in H. discriminate.
    + intros _. exact Hns.
Qed.

Lemma notification_expires_witness :
  exists s',
    exists_in_frame InVideoDetected_class notified_at_4 None None 200 = Ok s'
    /\ (List.length (in_frames s') <= List.length (in_frames notified_at_4) ->
        exists m,
          window_mean (in_frames s') = Ok m
          /\ notification_state s'
             = if gtb m (notify_prob InVideoDetected_class)
               then (true, true, Some 200%float)
               else (false, notified_awaiting notified_at_4, None))
    /\ (List.length (in_frames s') = S (List.length (in_frames notified_at_4)) ->
        notification_state s' = notification_state notified_at_4).
Proof.
  apply (notification_expires InVideoDetected_class notified_at_4 None None
           200%float 4%float).
  - split; [reflexivity | discriminate].
  - reflexivity.
  - reflexivity.
  - reflexivity.
  - vm_compute. reflexivity.
Defined.

(** X8: a call that prunes the window of an idle instance notifies exactly
    if the new mean of the window is above [notify_prob]; the notification
    then carries the time of this call and waits to be fetched.  Otherwise
    the three notification fields stay as they are. *)
Theorem idle_notifies_above_threshold cls s p f now :
  consistent s -> done s = false -> notified s = false ->
  exists s',
    exists_in_frame cls s p f now = Ok s'
    /\ (List.length (in_frames s') <= List.length (in_frames s) ->
        exists m,
          window_mean (in_frames s') = Ok m
          /\ notification_state s'
             = if gtb m (notify_prob cls)
               then (true, true, Some now)
               else notification_state s)
    /\ (List.length (in_frames s') = S (List.length (in_frames s)) ->
        notification_state s' = notification_state s).
Proof.
  intros Hcons Hd Hn.
  destruct (exists_in_frame_spec cls s p f now Hd Hcons)
    as (s' & b & _ & He & _ & _ & Hb & Hcase).
  exists s'. split; [exact He |]. destruct b.
  - destruct Hcase as (m & Hm & _ & Hns). split.
    + intros _. exists m. split; [exact Hm |]. rewrite Hns.
      unfold notification_state, renotify. rewrite Hn. cbn.
      now rewrite andb_true_r.
    + intros H. assert (List.length (in_frames s') <= List.length (in_frames s))
        by now apply Hb. lia.
  - destruct Hcase as [_ Hns]. split.
    + intros H. apply Hb in H. discriminate.
    + intros _. exact Hns.
Qed.

Lemma idle_notifies_above_threshold_witness :
  exists s',
    exists_in_frame InVideoDetected_class two_frames None None 4 = Ok s'
    /\ (List.length (in_frames s') <= List.length (in_frames two_frames) ->
        exists m,
          window_mean (in_frames s') = Ok m
          /\ notification_state s'
             = if gtb m (notify_prob InVideoDetected_class)
               then (true, true, Some 4%float)
               else notification_state two_frames)
    /\ (List.length (in_frames s') = S (List.length (in_frames two_frames)) ->
        notification_state s' = notification_state two_frames).
Proof.
  apply (idle_notifies_above_threshold InVideoDetected_class two_frames None None
           4%float).
  - split; [reflexivity | discriminate].
  - reflexivity.
  - reflexivity.
Defined.

Lemma recompute_not_detected_anymore cls now s s' :
  recompute cls now s = Ok s' ->
  not_detected_anymore s = true -> not_detected_anymore s' = true.
Proof.
  unfold recompute.
  destruct (window_mean (in_frames s)) as [m |]; cbn [bind]; [| discriminate].
  destruct s as [d p nd fr ts aw n nts ll im]. cbn. unfold gtb.
  destruct n; cbn.
  - destruct nts as [t |]; [| discriminate].
    destruct (stay_notified cls <? now - t)%float; cbn;
      destruct (notify_prob cls <? m)%float; cbn;
      destruct (m =? 0)%float; cbn; intros H; injection H as <-; cbn; auto.
  - destruct (notify_prob cls <? m)%float; cbn;
      destruct (m =? 0)%float; cbn; intros H; injection H as <-; cbn; auto.
Qed.

Lemma absorb_not_detected_anymore p f s :
  not_detected_anymore (absorb p f s) = not_detected_anymore s.
Proof.
  unfold absorb.
  destruct (processed_looks_like p), (processed_prob p), f; cbn;
    try case_if; cbn; auto.
Qed.

(** X7: [not_detected_anymore] is never taken back: once it is set it stays
    set along every stream of calls. *)
Theorem not_detected_anymore_is_kept cls calls s bs s' :
  run cls s calls = Ok (bs, s') ->
  not_detected_anymore s = true ->
  not_detected_anymore s' = true.
Proof.
  intros Hr Hn.
  apply (run_preserves cls (fun s => not_detected_anymore s = true))
    with (calls := calls) (s := s) (bs := bs); [| | | exact Hn | exact Hr].
  - intros s0 H. exact H.
  - intros s0 H. unfold make_notify.
    destruct (notified s0 && notified_awaiting s0); exact H.
  - intros s0 p f now s1 H He. unfold exists_in_frame in He.
    destruct (done s0); [now injection He as <- |].
    destruct (prune _ _ _ _ _) as [[[fr ts] b] |]; cbn [bind] in He; [| discriminate].
    assert (Hs2 : forall s2,
               (if b then recompute cls now (set_window fr ts s0)
                else Ok (set_window fr ts s0)) = Ok s2 ->
               not_detected_anymore s2 = true).
    { intros s2. destruct b.
      - intros Hrc. eapply recompute_not_detected_anymore; eauto.
      - intros Hrc. now injection Hrc as <-. }
    destruct (if b then _ else _) as [s2 |]; cbn [bind] in He; [| discriminate].
    injection He as <-. specialize (Hs2 s2 eq_refl).
    destruct p as [p |]; cbn; [| exact Hs2].
    now rewrite absorb_not_detected_anymore.
Qed.

Lemma not_detected_anymore_is_kept_witness :
  not_detected_anymore
    (set_done true (set_window [1; 1; 1]%Z [0; 1; 2]%float
                      (set_not_detected_anymore true two_frames))) = true.
Proof.
  apply (not_detected_anymore_is_kept InVideoDetected_class
           [CallExistsInFrame (Some seen) (Some (frame_id 0)) 2]
           (set_window [1; 1]%Z [0; 1]%float (set_not_detected_anymore true two_frames))
           []).
  - vm_compute. reflexivity.
  - reflexivity.
Defined.

(** *** looks_like *)

Lemma ascii_before_trans a b c :
  Ascii.compare a b = Lt -> Ascii.compare b c = Lt -> Ascii.compare a c = Lt.
Proof.
  unfold Ascii.compare. rewrite !N.compare_lt_iff. apply N.lt_trans.
Qed.

Lemma before_trans a : forall b c, before a b -> before b c -> before a c.
Proof.
  unfold before. induction a as [| x a IH]; intros b c Hab Hbc.
  - destruct b as [| y b]; [discriminate |]. destruct c; [discriminate | reflexivity].
  - destruct b as [| y b]; [discriminate |]. destruct c as [| z c]; [discriminate |].
    cbn [String.compare] in *.
    destruct (Ascii.compare x y) eqn:Hxy; try discriminate.
    + apply Ascii.compare_eq_iff in Hxy. subst y.
      destruct (Ascii.compare x z); try discriminate; [| reflexivity].
      eapply IH; eauto.
    + destruct (Ascii.compare y z) eqn:Hyz; try discriminate.
      * apply Ascii.compare_eq_iff in Hyz. subst z. now rewrite Hxy.
      * now rewrite (ascii_before_trans x y z Hxy Hyz).
Qed.

Lemma before_irrefl a : ~ before a a.
Proof.
  unfold before. intros H.
  pose proof (String.compare_antisym a a) as E. rewrite H in E. discriminate.
Qed.

Lemma insert_uniq_In x l y : In y (insert_uniq x l) <-> y = x \/ In y l.
Proof.
  induction l as [| z l IH]; cbn [insert_uniq].
  - cbn. intuition.
  - destruct (String.compare x z) eqn:Hc.
    + apply String.compare_eq_iff in Hc. subst z. cbn. intuition.
    + cbn. intuition.
    + cbn [In]. rewrite IH. intuition.
Qed.

Lemma insert_uniq_sorted x l :
  StronglySorted before l -> StronglySorted before (insert_uniq x l).
Proof.
  induction 1 as [| z l Hs IH Hall]; cbn [insert_uniq].
  - repeat constructor.
  - destruct (String.compare x z) eqn:Hc.
    + now constructor.
    + constructor; [now constructor |].
      constructor; [exact Hc |].
      eapply Forall_impl; [| exact Hall]. intros w Hw.
      eapply before_trans; eauto.
    + constructor; [exact IH |].
      apply Forall_forall. intros w Hw. apply insert_uniq_In in Hw.
      destruct Hw as [-> | Hw].
      * unfold before. rewrite String.compare_antisym, Hc. reflexivity.
      * rewrite Forall_forall in Hall. now apply Hall.
Qed.

Lemma sorted_set_In l y : In y (sorted_set l) <-> In y l.
Proof.
  unfold sorted_set. induction l as [| x l IH]; cbn [fold_right]; [tauto |].
  rewrite insert_uniq_In, IH. cbn. intuition.
Qed.

Lemma sorted_set_sorted l : StronglySorted before (sorted_set l).
Proof.
  unfold sorted_set. induction l as [| x l IH]; cbn [fold_right].
  - constructor.
  - now apply insert_uniq_sorted.
Qed.

Lemma sorted_nodup l : StronglySorted before l -> NoDup l.
Proof.
  induction 1 as [| z l Hs IH Hall]; constructor; [| exact IH].
  intros Hin. rewrite Forall_forall in Hall. apply (before_irrefl z), Hall, Hin.
Qed.

(** X9: when a verdict brings names, [looks_like] afterwards holds exactly
    the names it held before and the names of the verdict, each once, in
    increasing order. *)
Theorem looks_like_sorted_union p f s :
  processed_looks_like p <> [] ->
  (forall x, In x (looks_like (absorb p f s))
             <-> In x (looks_like s) \/ In x (processed_looks_like p))
  /\ StronglySorted before (looks_like (absorb p f s))
  /\ NoDup (looks_like (absorb p f s)).
Proof.
  intros Hne.
  assert (E : looks_like (absorb p f s)
              = sorted_set (looks_like s ++ processed_looks_like p)).
  { unfold absorb. destruct (processed_looks_like p) as [| n ns]; [congruence |].
    destruct (processed_prob p), f; cbn; try case_if; reflexivity. }
  rewrite E. split; [| split].
  - intros x. rewrite sorted_set_In, in_app_iff. tauto.
  - apply sorted_set_sorted.
  - apply sorted_nodup, sorted_set_sorted.
Qed.

Lemma looks_like_sorted_union_witness :
  (forall x, In x (looks_like (absorb (seen_with 0.9) None two_frames))
             <-> In x (looks_like two_frames)
                 \/ In x (processed_looks_like (seen_with 0.9)))
  /\ StronglySorted before (looks_like (absorb (seen_with 0.9) None two_frames))
  /\ NoDup (looks_like (absorb (seen_with 0.9) None two_frames)).
Proof.
  apply (looks_like_sorted_union (seen_with 0.9) None two_frames).
  discriminate.
Defined.

End VideoNotifyMore.

(** * More on the ensemble and the fusion *)

Module DetectorMore.
Import Detector DetectorSpec DetectorSamples MoreSpec MoreSamples DetectorProps.

(** *** Loading *)

Lemma load_loop_agreeing a0 rest :
  Forall (agrees a0) rest ->
  forall clfi new,
    class_names new = Some (artifact_class_names a0) ->
    class_stats new = Some (artifact_class_stats a0) ->
    load_loop clfi rest new
    = Ok {| classifiers := classifiers new ++ map artifact_clf rest;
            classifier_names := classifier_names new ++ map snd (described clfi rest);
            embedding_sizes := embedding_sizes new ++ map fst (described clfi rest);
            class_names := Some (artifact_class_names a0);
            class_stats := Some (artifact_class_stats a0) |}.
Proof.
  induction 1 as [| a rest [Hn Hs] _ IH]; intros clfi new Hcn Hcs.
  - cbn. rewrite !app_nil_r. destruct new; cbn in *. now rewrite Hcn, Hcs.
  - cbn [load_loop described map]. unfold load_one. rewrite Hcn, Hcs, Hn, Hs.
    destruct (describe clfi (artifact_clf a)) as [size name].
    destruct (list_eq_dec string_dec (artifact_class_names a0) (artifact_class_names a0));
      [| congruence].
    destruct (list_eq_dec class_stat_eq_dec (artifact_class_stats a0)
                (artifact_class_stats a0)); [| congruence].
    cbn [bind]. rewrite IH by reflexivity. cbn [classifiers classifier_names embedding_sizes fst snd].
    now rewrite <- !app_assoc.
Qed.

(** X10: with [model_dir] set, a directory whose artifacts all carry the
    label space of the first one loads without exception: the detector gets
    a new ensemble with the classifiers in the order of the files, their
    names and embedding sizes beside them in lists of the same length, the
    class names and stats of the first file, and [use_classifiers] on. *)
Theorem load_agreeing self a0 rest :
  truthy (model_dir self) = true ->
  Forall (agrees a0) rest ->
  let found := a0 :: rest in
  let new := {| classifiers := map artifact_clf found;
                classifier_names := map snd (described 0 found);
                embedding_sizes := map fst (described 0 found);
                class_names := Some (artifact_class_names a0);
                class_stats := Some (artifact_class_stats a0) |} in
  load_classifiers self found
  = (Ok tt, set_use_classifiers true (set_classifiers new self))
  /\ List.length (classifier_names new) = List.length (classifiers new)
  /\ List.length (embedding_sizes new) = List.length (classifiers new).
Proof.
  intros Hdir Hall found new. split; [| split].
  - unfold load_classifiers. rewrite Hdir. cbn [negb found load_loop].
    unfold load_one at 1. cbn [class_names class_stats new_classifiers].
    destruct (describe 0 (artifact_clf a0)) as [size name] eqn:Hdesc. cbn [bind].
    rewrite (load_loop_agreeing a0 rest Hall) by reflexivity.
    subst new found. cbn [map described classifiers classifier_names embedding_sizes
                            new_classifiers app].
    rewrite Hdesc. reflexivity.
  - subst new found. cbn [classifier_names classifiers]. rewrite !length_map.
    clear. generalize 0. induction (a0 :: rest); intros n; cbn; auto.
  - subst new found. cbn [embedding_sizes classifiers]. rewrite !length_map.
    clear. generalize 0. induction (a0 :: rest); intros n; cbn; auto.
Qed.

Lemma load_agreeing_witness :
  let found := artifact_svm names stats
                 :: [{| artifact_clf := knn; artifact_class_names := names;
                        artifact_class_stats := stats |}] in
  let new := {| classifiers := map artifact_clf found;
                classifier_names := map snd (described 0 found);
                embedding_sizes := map fst (described 0 found);
                class_names := Some (artifact_class_names (artifact_svm names stats));
                class_stats := Some (artifact_class_stats (artifact_svm names stats)) |} in
  load_classifiers fresh found
  = (Ok tt, set_use_classifiers true (set_classifiers new fresh))
  /\ List.length (classifier_names new) = List.length (classifiers new)
  /\ List.length (embedding_sizes new) = List.length (classifiers new).
Proof.
  apply (load_agreeing fresh (artifact_svm names stats)
           [{| artifact_clf := knn; artifact_class_names := names;
               artifact_class_stats := stats |}]).
  - reflexivity.
  - repeat constructor.
Defined.


(** *** Turns of the loop that do not contribute, and turns that raise *)

Section Turns.

Variable fmt : Printf.

(** A classifier whose turn changes nothing can be taken out of the
    ensemble. *)
Lemma idle_turn_removed self output bbox i clf :
  nth_error (classifiers (self_classifiers self)) i = Some clf ->
  (forall acc,
     score_classifier fmt (self_classifiers self) (debug self) output i clf acc
     = Ok acc) ->
  process_output fmt self output bbox
  = process_output fmt (without_classifier i self) output bbox.
Proof.
  intros Hclf Hidle.
  set (cs := self_classifiers self) in *.
  assert (Hloop :
    score_loop fmt cs (debug self) output 0 (classifiers cs) start
    = score_loop fmt (without i cs) (debug self) output 0
        (classifiers (without i cs)) start).
  { destruct (nth_error_split _ _ Hclf) as (pre & post & Hsplit & Hlen).
    cbn [without classifiers]. rewrite Hsplit. subst i.
    rewrite remove_nth_app, !(score_loop_app fmt). cbn [score_loop Nat.add].
    rewrite (score_loop_ext fmt cs (without (List.length pre) cs) (debug self) output pre
               eq_refl eq_refl 0 0 start).
    2:{ intros j Hj. cbn [without embedding_sizes classifier_names Nat.add].
        now rewrite !nth_error_remove_nth_lt. }
    destruct (score_loop fmt (without (List.length pre) cs) (debug self) output 0 pre start)
      as [acc | e]; cbn [bind]; [| reflexivity].
    rewrite Hidle. cbn [bind].
    apply score_loop_ext; try reflexivity.
    intros j Hj. cbn [without embedding_sizes classifier_names].
    rewrite !nth_error_remove_nth_ge by lia. cbn [Nat.add]. auto. }
  unfold process_output.
  change (self_classifiers (without_classifier i self)) with (without i cs).
  change (debug (without_classifier i self)) with (debug self).
  fold cs. rewrite Hloop. reflexivity.
Qed.

(** X11: a classifier whose [predict_proba] raises [ValueError], or that is
    of an unsupported type and whose [predict_proba] returns a row, does not
    take part: [process_output] gives what it gives on the ensemble without
    it. *)
Theorem passed_over_is_excluded self output bbox i clf size :
  nth_error (classifiers (self_classifiers self)) i = Some clf ->
  nth_error (embedding_sizes (self_classifiers self)) i = Some size ->
  passed_over clf output ->
  process_output fmt self output bbox
  = process_output fmt (without_classifier i self) output bbox.
Proof.
  intros Hclf Hsize Hpass. apply (idle_turn_removed self output bbox i clf Hclf).
  intros acc. unfold score_classifier, py_index. rewrite Hsize. cbn [bind].
  destruct (Nat.eqb (List.length output) size); [| reflexivity].
  destruct Hpass as [-> | [(x & row & ->) [name ->]]]; [reflexivity |].
  cbn [argmax bind]. reflexivity.
Qed.

(** An exception in the turn of one classifier, after turns that went well,
    is the outcome of [process_output]. *)
Lemma turn_raises self output bbox i clf acc e :
  nth_error (classifiers (self_classifiers self)) i = Some clf ->
  score_loop fmt (self_classifiers self) (debug self) output 0
    (firstn i (classifiers (self_classifiers self))) start = Ok acc ->
  score_classifier fmt (self_classifiers self) (debug self) output i clf acc = Raise e ->
  process_output fmt self output bbox = Raise e.
Proof.
  intros Hclf Hpre Hturn.
  destruct (nth_error_split _ _ Hclf) as (pre & post & Hsplit & Hlen).
  unfold process_output.
  rewrite Hsplit in Hpre |- *. subst i.
  rewrite firstn_app, firstn_all, Nat.sub_diag, firstn_0, app_nil_r in Hpre.
  rewrite (score_loop_app fmt), Hpre. cbn [bind score_loop Nat.add].
  rewrite Hturn. reflexivity.
Qed.

(** X12: only [ValueError] is caught around [predict_proba].  If the
    classifiers before it went well and the embedding has the size of
    classifier [i], any other exception of its [predict_proba] (a model
    without that method, say) is raised by [process_output]: no verdict. *)
Theorem predict_proba_error_aborts self output bbox i clf acc e :
  nth_error (classifiers (self_classifiers self)) i = Some clf ->
  nth_error (embedding_sizes (self_classifiers self)) i = Some (List.length output) ->
  score_loop fmt (self_classifiers self) (debug self) output 0
    (firstn i (classifiers (self_classifiers self))) start = Ok acc ->
  predict_proba clf output = Raise e ->
  e <> ValueError ->
  process_output fmt self output bbox = Raise e.
Proof.
  intros Hclf Hsize Hpre Hraise Hne.
  apply (turn_raises self output bbox i clf acc e Hclf Hpre).
  unfold score_classifier, py_index. rewrite Hsize. cbn [bind].
  rewrite Nat.eqb_refl, Hraise. destruct e; congruence.
Qed.

(** X13: [kneighbors] is called outside the [try].  For a kNN model that
    predicted a class with a name and a count, an exception of [kneighbors]
    (a [ValueError] too: more neighbours asked for than training samples) is
    raised by [process_output]. *)
Theorem kneighbors_error_aborts self output bbox i clf acc row best name stat e :
  nth_error (classifiers (self_classifiers self)) i = Some clf ->
  nth_error (embedding_sizes (self_classifiers self)) i = Some (List.length output) ->
  score_loop fmt (self_classifiers self) (debug self) output 0
    (firstn i (classifiers (self_classifiers self))) start = Ok acc ->
  clf_type clf = KNeighborsClassifier ->
  predict_proba clf output = Ok row ->
  argmax row = Ok best ->
  py_index_opt (class_names (self_classifiers self)) best = Ok name ->
  py_index_opt (class_stats (self_classifiers self)) best = Ok stat ->
  kneighbors clf output (embeddings stat) = Raise e ->
  process_output fmt self output bbox = Raise e.
Proof.
  intros Hclf Hsize Hpre Hty Hrow Hbest Hname Hstat Hraise.
  apply (turn_raises self output bbox i clf acc e Hclf Hpre).
  unfold score_classifier, py_index. rewrite Hsize. cbn [bind].
  rewrite Nat.eqb_refl, Hrow, Hbest. cbn [bind]. rewrite Hty.
  unfold contribute, process_index_knn. rewrite Hname, Hstat. cbn [bind].
  rewrite Hraise. reflexivity.
Qed.

End Turns.

Lemma passed_over_is_excluded_witness :
  process_output plain with_forest_2 embedding box
  = process_output plain (without_classifier 1 with_forest_2) embedding box.
Proof.
  apply (passed_over_is_excluded plain with_forest_2 embedding box 1 forest 2).
  - reflexivity.
  - reflexivity.
  - right. split; [exists 0.5%float, [0.5%float]; reflexivity |].
    exists "RandomForestClassifier"%string. reflexivity.
Defined.

Lemma predict_proba_error_aborts_witness :
  process_output plain with_regressor embedding box = Raise AttributeError.
Proof.
  apply (predict_proba_error_aborts plain with_regressor embedding box 1 regressor
           (scored (detector true (ensemble [svm [0.05; 0.01]%float] ["SVM"%string] [2]))
              embedding)
           AttributeError).
  - reflexivity.
  - reflexivity.
  - vm_compute. reflexivity.
  - reflexivity.
  - discriminate.
Defined.

Lemma kneighbors_error_aborts_witness :
  process_output plain with_small_knn embedding box = Raise ValueError.
Proof.
  apply (kneighbors_error_aborts plain with_small_knn embedding box 1 small_knn
           (scored (detector true (ensemble [svm [0.05; 0.01]%float] ["SVM"%string] [2]))
              embedding)
           [0.7; 0.3]%float 0 "alice"%string {| embeddings := 10 |} ValueError).
  - reflexivity.
  - reflexivity.
  - vm_compute. reflexivity.
  - reflexivity.
  - reflexivity.
  - vm_compute. reflexivity.
  - reflexivity.
  - reflexivity.
  - reflexivity.
Defined.


(** *** Labels and overlays *)

Section Labels.

Variable fmt : Printf.

Lemma contribute_labelled cs clfi best pi acc acc' :
  labelled cs acc ->
  contribute fmt cs false clfi best pi acc = Ok acc' ->
  labelled cs acc'.
Proof.
  unfold labelled, contribute. intros Hlab.
  destruct (py_index_opt (class_names cs) best) as [name |] eqn:Hname; cbn [bind];
    [| discriminate].
  destruct pi as [[p d] |]; cbn [bind]; [| discriminate].
  destruct (py_index (classifier_names cs) clfi) as [cname |]; cbn [bind]; [| discriminate].
  intros H. injection H as <-. cbn [detected_indices label_strings].
  destruct (detected_indices acc) as [| i rest]; cbn [app].
  - rewrite Hlab. eauto.
  - destruct Hlab as (n & Hn & ->). eauto.
Qed.

Lemma score_loop_labelled cs output clfs :
  forall clfi acc acc',
    labelled cs acc ->
    score_loop fmt cs false output clfi clfs acc = Ok acc' ->
    labelled cs acc'.
Proof.
  induction clfs as [| clf clfs IH]; intros clfi acc acc' Hlab; cbn [score_loop].
  - intros H. now injection H as <-.
  - destruct (score_classifier fmt cs false output clfi clf acc) as [acc1 |] eqn:H1;
      cbn [bind]; [| discriminate].
    apply IH. revert H1. unfold score_classifier.
    destruct (py_index (embedding_sizes cs) clfi) as [size |]; cbn [bind]; [| discriminate].
    destruct (if Nat.eqb (List.length output) size then predict_proba clf output
              else Raise ValueError) as [predictions | e].
    + destruct (argmax predictions) as [best |]; cbn [bind]; [| discriminate].
      destruct (clf_type clf).
      * now apply contribute_labelled.
      * now apply contribute_labelled.
      * intros H. now injection H as <-.
    + destruct e; try discriminate. intros H. now injection H as <-.
Qed.

(** X14: outside debug mode, once the loop over the classifiers has ended
    without exception, [process_output] returns.  Not detected: a thin red
    box and no label.  Detected: a thick green box, and the label is the name
    of the class that all contributing classifiers predicted, placed at the
    truncated corners of the box; a class whose name is the empty string
    gets no label. *)
Theorem label_outside_debug self output bbox acc :
  debug self = false ->
  score_loop fmt (self_classifiers self) false output 0
    (classifiers (self_classifiers self)) start = Ok acc ->
  exists ov lbl,
    process_output fmt self output bbox = Ok (ov, lbl, fused acc)
    /\ bb ov = truncated bbox
    /\ (verdict acc = false ->
        thin ov = true /\ color ov = (0, 0, 255)%Z /\ lbl = None)
    /\ (verdict acc = true ->
        thin ov = false /\ color ov = (0, 255, 0)%Z
        /\ forall i, In i (detected_indices acc) ->
             exists name,
               py_index_opt (class_names (self_classifiers self)) i = Ok name
               /\ lbl = if String.eqb name "" then None
                        else Some {| label := name;
                                     left := astype_int (bbox_left bbox);
                                     top := astype_int (bbox_top bbox);
                                     right := astype_int (bbox_right bbox);
                                     bottom := astype_int (bbox_bottom bbox);
                                     label_color := (0, 255, 0)%Z |}).
Proof.
  intros Hdbg Hloop.
  assert (Hlab : labelled (self_classifiers self) acc).
  { eapply score_loop_labelled; [| exact Hloop]. reflexivity. }
  unfold process_output. rewrite Hdbg, Hloop. cbn [bind].
  unfold label_text, with_summary.
  destruct (verdict acc) eqn:Hv.
  - unfold verdict in Hv. apply andb_true_iff in Hv. destruct Hv as [Hone _].
    apply one_distinct in Hone. destruct Hone as [Hne Hsame].
    unfold labelled in Hlab.
    destruct (detected_indices acc) as [| i0 rest] eqn:Hidx; [congruence |].
    destruct Hlab as (name & Hname & Hls). rewrite Hls. cbn [py_index nth_error bind negb].
    do 2 eexists. split; [reflexivity |]. cbn [bb thin color].
    split; [reflexivity |]. split; [discriminate |].
    intros _. split; [reflexivity |]. split; [reflexivity |].
    intros i Hi. exists name.
    rewrite (Hsame i i0 Hi (or_introl eq_refl)). split; [exact Hname | reflexivity].
  - cbn [bind negb String.eqb]. do 2 eexists. split; [reflexivity |]. cbn [bb thin color].
    split; [reflexivity |]. split; [auto | discriminate].
Qed.

Lemma process_output_bb self output bbox ov lbl conf :
  process_output fmt self output bbox = Ok (ov, lbl, conf) -> bb ov = truncated bbox.
Proof.
  unfold process_output.
  destruct (score_loop _ _ _ _ _ _ _) as [acc |]; cbn [bind]; [| discriminate].
  destruct (label_text _ _ _) as [str |]; cbn [bind]; [| discriminate].
  intros H. injection H as <- _ _. reflexivity.
Qed.

Lemma skipn_nth_error {A : Type} (l : list A) :
  forall n x, nth_error l n = Some x -> skipn n l = x :: skipn (S n) l.
Proof.
  induction l as [| y l IH]; intros n x H; destruct n; try discriminate.
  - now injection H as ->.
  - cbn [skipn nth_error] in *. now apply IH.
Qed.

Lemma faces_loop_spec ext self boxes imgs :
  forall img_idx ovs lbls ovs' lbls',
    faces_loop fmt ext self boxes img_idx imgs ovs lbls = Ok (ovs', lbls') ->
    exists new,
      ovs' = ovs ++ new
      /\ List.length new = List.length imgs
      /\ map bb new = map truncated (firstn (List.length imgs) (skipn img_idx boxes))
      /\ List.length lbls' <= List.length lbls + List.length imgs.
Proof.
  induction imgs as [| img imgs IH]; intros img_idx ovs lbls ovs' lbls'; cbn [faces_loop].
  - intros H. injection H as <- <-. exists []. rewrite app_nil_r. cbn. auto with arith.
  - unfold py_index. destruct (nth_error boxes img_idx) as [bbox |] eqn:Hbox;
      cbn [bind]; [| discriminate].
    destruct (process_output fmt self (inference_facenet ext img) bbox)
      as [[[ov lbl] conf] |] eqn:Hpo; cbn [bind]; [| discriminate].
    intros H. apply IH in H. destruct H as (new & -> & Hlen & Hbb & Hl).
    exists (ov :: new). rewrite <- app_assoc. split; [reflexivity |].
    split; [cbn; lia |]. split.
    + rewrite (skipn_nth_error boxes img_idx bbox Hbox).
      cbn [List.length firstn map]. rewrite (process_output_bb _ _ _ _ _ _ Hpo).
      f_equal. exact Hbb.
    + destruct lbl; [rewrite length_app in Hl |]; cbn in *; lia.
Qed.

(** X15: when [process_frame] classifies and returns, it returns one
    overlay per face image, in the order of the images, each carrying the
    truncated coordinates of the detector's box of the same position, and at
    most one label per overlay. *)
Theorem one_overlay_per_face ext self frame ovs lbls :
  use_classifiers self = true ->
  process_frame fmt ext self frame = Ok (ovs, lbls) ->
  let boxes := detect_faces ext frame (threshold self) in
  let imgs := get_images ext frame boxes in
  List.length ovs = List.length imgs
  /\ map bb ovs = map truncated (firstn (List.length imgs) boxes)
  /\ List.length lbls <= List.length ovs.
Proof.
  intros Huse. unfold process_frame. rewrite Huse. intros H.
  apply faces_loop_spec in H. destruct H as (new & -> & Hlen & Hbb & Hl).
  cbn [app skipn] in *.
  split; [exact Hlen |]. split; [exact Hbb |]. cbn in Hl. lia.
Qed.

End Labels.

Lemma label_outside_debug_witness :
  exists ov lbl,
    process_output plain agreeing embedding box
    = Ok (ov, lbl, fused (scored agreeing embedding))
    /\ bb ov = truncated box
    /\ (verdict (scored agreeing embedding) = false ->
        thin ov = true /\ color ov = (0, 0, 255)%Z /\ lbl = None)
    /\ (verdict (scored agreeing embedding) = true ->
        thin ov = false /\ color ov = (0, 255, 0)%Z
        /\ forall i, In i (detected_indices (scored agreeing embedding)) ->
             exists name,
               py_index_opt (class_names (self_classifiers agreeing)) i = Ok name
               /\ lbl = if String.eqb name "" then None
                        else Some {| label := name;
                                     left := astype_int (bbox_left box);
                                     top := astype_int (bbox_top box);
                                     right := astype_int (bbox_right box);
                                     bottom := astype_int (bbox_bottom box);
                                     label_color := (0, 255, 0)%Z |}).
Proof.
  apply (label_outside_debug plain agreeing embedding box (scored agreeing embedding)).
  - reflexivity.
  - vm_compute. reflexivity.
Defined.

Lemma one_overlay_per_face_witness :
  let ov := {| bb := truncated box; thin := false; color := (0, 255, 0)%Z |} in
  let lbl := {| label := "alice"; left := 1; top := 2; right := 100; bottom := 50;
                label_color := (0, 255, 0)%Z |} in
  let boxes := detect_faces one_face (frame_id 0) (threshold agreeing) in
  let imgs := get_images one_face (frame_id 0) boxes in
  List.length [ov] = List.length imgs
  /\ map bb [ov] = map truncated (firstn (List.length imgs) boxes)
  /\ List.length [lbl] <= List.length [ov].
Proof.
  apply (one_overlay_per_face plain one_face agreeing (frame_id 0)).
  - reflexivity.
  - vm_compute. reflexivity.
Defined.

(** *** Probabilities *)

Lemma nan_clamp01 x : ~ number x -> clamp01 x = 1%float.
Proof.
  unfold number. intros Hn.
  assert (E : Prim2SF x = S754_nan).
  { destruct (Prim2SF x); try reflexivity; exfalso; apply Hn; discriminate. }
  unfold clamp01, py_max, py_min, gtb.
  rewrite (FloatAxioms.ltb_spec x 1), E. cbn. reflexivity.
Qed.

(** X16: the probability of the SVM rule is a number between 0 and 1 for
    every input; a NaN from [predict_proba] comes out as 1. *)
Theorem svm_prob_bounded p :
  (0 <=? svm_prob p)%float = true
  /\ (svm_prob p <=? 1)%float = true
  /\ (~ number p -> svm_prob p = 1%float).
Proof.
  unfold svm_prob. destruct (clamp01_range (p * 10)) as [H0 H1].
  split; [exact H0 |]. split; [exact H1 |].
  intros Hn. apply nan_clamp01. unfold number in *. intros H. apply Hn.
  rewrite FloatAxioms.mul_spec in H. unfold SF64mul, SFmul in H.
  destruct (Prim2SF p); try discriminate. congruence.
Qed.

End DetectorMore.

(** * The verdict, from the votes of the classifiers *)

Module FusionProps.
Import Detector DetectorSpec DetectorSamples MoreSpec MoreSamples DetectorProps
  DetectorMore FusionSpec FusionSamples.

(** *** Doubles: adding to zero *)

Lemma zero_plus p : Prim2SF p <> S754_zero true -> (0 + p)%float = p.
Proof.
  intros H. apply Prim2SF_inj. rewrite FloatAxioms.add_spec, Prim2SF_zero.
  unfold SF64add, SFadd.
  destruct (Prim2SF p) as [[|] | s | | s m e]; try reflexivity. congruence.
Qed.

Lemma binary_round_aux_not_minus_zero m e :
  binary_round_aux prec emax false (Zpos m) e loc_Exact <> S754_zero true.
Proof.
  unfold binary_round_aux.
  destruct (shr_fexp prec emax (Zpos m) e loc_Exact) as [mrs' e'].
  destruct (shr_fexp prec emax _ e' loc_Exact) as [mrs'' e''].
  destruct (shr_m mrs'') as [| p | p]; try discriminate.
  destruct (e'' <=? emax - prec)%Z; discriminate.
Qed.

Lemma clamp01_sign x :
  match Prim2SF (clamp01 x) with
  | S754_zero s => s = false
  | S754_finite s _ _ => s = false
  | _ => False
  end.
Proof.
  destruct (clamp01_cases x) as [-> | [-> | (-> & H0 & H1)]].
  - reflexivity.
  - reflexivity.
  - unfold gtb in H0. rewrite FloatAxioms.ltb_spec in H0, H1.
    rewrite Prim2SF_zero in H0. rewrite Prim2SF_one in H1.
    unfold SFltb in *.
    destruct (Prim2SF x) as [s | s | | s m e].
    + cbn in H0. discriminate.
    + cbn in H0, H1. destruct s; discriminate.
    + discriminate.
    + cbn in H0. destruct s; [discriminate | reflexivity].
Qed.

(** A rule value is never the negative zero. *)
Lemma rule_value_not_minus_zero p : rule_value p -> Prim2SF p <> S754_zero true.
Proof.
  intros [[x ->] | (x & y & ->)].
  - pose proof (clamp01_sign x) as H.
    destruct (Prim2SF (clamp01 x)) as [s | s | | s m e]; try discriminate.
    subst s. discriminate.
  - pose proof (clamp01_sign x) as Hx. pose proof (clamp01_sign y) as Hy.
    rewrite FloatAxioms.mul_spec. unfold SF64mul, SFmul.
    destruct (Prim2SF (clamp01 x)) as [sx | sx | | sx mx ex];
      destruct (Prim2SF (clamp01 y)) as [sy | sy | | sy my ey];
      try contradiction; subst; cbn [xorb]; try discriminate.
    apply binary_round_aux_not_minus_zero.
Qed.

(** [sum(probs) / len(probs)] is the mean of the rule values recorded. *)
Lemma mean_of_rule_values ps :
  Forall rule_value ps -> ps <> [] ->
  (sum_float ps / float_of_Z (Z.of_nat (List.length ps)))%float = arithmetic_mean ps.
Proof.
  intros Hall Hne. destruct ps as [| p rest]; [congruence |].
  unfold sum_float, arithmetic_mean. cbn [fold_left].
  rewrite zero_plus; [reflexivity |].
  apply rule_value_not_minus_zero. now inversion Hall.
Qed.

(** *** Doubles: comparisons *)

Lemma SFcompare_refl x : x <> S754_nan -> SFcompare x x = Some Eq.
Proof.
  destruct x as [s | s | | s m e]; intros H; cbn.
  - reflexivity.
  - now destruct s.
  - congruence.
  - rewrite Z.compare_refl, Pos.compare_cont_refl. now destruct s.
Qed.

Lemma SFcompare_antisym x y c :
  SFcompare x y = Some c -> SFcompare y x = Some (CompOpp c).
Proof.
  destruct x as [sx | sx | | sx mx ex], y as [sy | sy | | sy my ey]; cbn;
    intros H; try discriminate; injection H as <-;
    try (destruct sx; reflexivity); try (destruct sy; reflexivity);
    try (destruct sx, sy; reflexivity).
  pose proof (Pos.compare_cont_antisym mx my Eq) as HP. cbn [CompOpp] in HP.
  rewrite (Z.compare_antisym ex ey), <- HP.
  destruct sx, sy; cbn; try reflexivity;
    destruct (ex ?= ey)%Z; cbn; reflexivity.
Qed.

Lemma ltb_number q p : (q <? p)%float = true -> is_nan q = false.
Proof.
  unfold is_nan. rewrite FloatAxioms.ltb_spec, FloatAxioms.eqb_spec.
  unfold SFltb, SFeqb. intros H.
  rewrite SFcompare_refl; [reflexivity |].
  intros Hq. rewrite Hq in H. discriminate.
Qed.

Lemma leb_number p : (p <=? p)%float = true -> is_nan p = false.
Proof.
  unfold is_nan. rewrite FloatAxioms.leb_spec, FloatAxioms.eqb_spec.
  unfold SFleb, SFeqb. intros H.
  rewrite SFcompare_refl; [reflexivity |].
  intros Hq. rewrite Hq in H. discriminate.
Qed.

Lemma ltb_not_leb q p : (q <? p)%float = true -> (p <=? q)%float = false.
Proof.
  rewrite FloatAxioms.ltb_spec, FloatAxioms.leb_spec. unfold SFltb, SFleb.
  destruct (SFcompare (Prim2SF q) (Prim2SF p)) as [[| |] |] eqn:Hc; try discriminate.
  intros _. now rewrite (SFcompare_antisym _ _ _ Hc).
Qed.

(** *** [np.argmax] finds the first of the greatest entries *)

Lemma argmax_loop_after ip :
  forall p best i,
    (forall q, In q ip -> (q <=? p)%float = true) ->
    argmax_loop p best i ip = best.
Proof.
  induction ip as [| x ip IH]; intros p best i H; cbn [argmax_loop]; [reflexivity |].
  rewrite (H x (or_introl eq_refl)). cbn [negb].
  apply IH. intros q Hq. apply H. now right.
Qed.

Lemma argmax_loop_before ip :
  forall mp max_ind i best p,
    (mp <? p)%float = true ->
    i <= best ->
    nth_error ip (best - i) = Some p ->
    (forall j q, nth_error ip j = Some q -> (q <=? p)%float = true) ->
    (forall j q, nth_error ip j = Some q -> i + j < best -> (q <? p)%float = true) ->
    argmax_loop mp max_ind i ip = best.
Proof.
  induction ip as [| x ip IH]; intros mp max_ind i best p Hmp Hi Hbest Hall Hbefore.
  - destruct (best - i); discriminate.
  - cbn [argmax_loop]. destruct (Nat.eq_dec i best) as [-> | Hne].
    + rewrite Nat.sub_diag in Hbest. injection Hbest as ->.
      rewrite (ltb_not_leb _ _ Hmp). cbn [negb].
      rewrite (leb_number p (Hall 0 p eq_refl)).
      apply argmax_loop_after. intros q Hq.
      destruct (In_nth_error _ _ Hq) as [j Hj]. apply (Hall (S j) q Hj).
    + assert (Hx : (x <? p)%float = true) by (apply (Hbefore 0 x eq_refl); lia).
      assert (Hrest : nth_error ip (best - S i) = Some p).
      { replace (best - i) with (S (best - S i)) in Hbest by lia. exact Hbest. }
      assert (Hall' : forall j q, nth_error ip j = Some q -> (q <=? p)%float = true).
      { intros j q Hj. apply (Hall (S j) q Hj). }
      assert (Hbefore' : forall j q, nth_error ip j = Some q -> S i + j < best ->
                                     (q <? p)%float = true).
      { intros j q Hj Hlt. apply (Hbefore (S j) q Hj). lia. }
      destruct (negb (x <=? mp)%float).
      * rewrite (ltb_number _ _ Hx).
        apply (IH x i (S i) best p Hx ltac:(lia) Hrest Hall' Hbefore').
      * apply (IH mp max_ind (S i) best p Hmp ltac:(lia) Hrest Hall' Hbefore').
Qed.

(** If no entry of the row is greater than the entry [p] at [best] and
    every entry before [best] is smaller, [np.argmax] returns [best]. *)
Lemma argmax_first_greatest row best p :
  nth_error row best = Some p ->
  (forall j q, nth_error row j = Some q -> (q <=? p)%float = true) ->
  (forall j q, nth_error row j = Some q -> j < best -> (q <? p)%float = true) ->
  argmax row = Ok best.
Proof.
  intros Hbest Hall Hbefore. destruct row as [| x ip]; [destruct best; discriminate |].
  cbn [argmax]. f_equal. destruct best as [| b].
  - injection Hbest as ->. rewrite (leb_number p (Hall 0 p eq_refl)).
    apply argmax_loop_after. intros q Hq.
    destruct (In_nth_error _ _ Hq) as [j Hj]. apply (Hall (S j) q Hj).
  - assert (Hx : (x <? p)%float = true) by (apply (Hbefore 0 x eq_refl); lia).
    rewrite (ltb_number _ _ Hx).
    apply (argmax_loop_before ip x 0 1 (S b) p Hx ltac:(lia)).
    + cbn. rewrite Nat.sub_0_r. exact Hbest.
    + intros j q Hj. apply (Hall (S j) q Hj).
    + intros j q Hj Hlt. apply (Hbefore (S j) q Hj). lia.
Qed.

Lemma arg_max_is_argmax row best p :
  arg_max row best p -> argmax row = Ok best /\ py_index row best = Ok p.
Proof.
  intros (Hp & Hall & Hbefore). split.
  - exact (argmax_first_greatest row best p Hp Hall Hbefore).
  - unfold py_index. now rewrite Hp.
Qed.

Section Votes.

Variable fmt : Printf.

(** *** One turn *)

Lemma cast_nothing acc : cast None acc acc.
Proof. unfold cast. cbn. now rewrite !app_nil_r. Qed.

(** The turn of an SVM that fits: the arg-max class, with
    [clamp(0,1, 10 * p)]. *)
Lemma svm_turn cs dbg output clfi clf acc best p :
  fits cs output clfi ->
  clf_type clf = SVC ->
  predicts output clf best p ->
  known cs clfi best ->
  exists acc',
    score_classifier fmt cs dbg output clfi clf acc = Ok acc'
    /\ cast (Some (best, svm_weight p)) acc acc'.
Proof.
  intros Hfit Hty (row & Hrow & Hmax) [[name Hname] [cname Hcname]].
  destruct (arg_max_is_argmax row best p Hmax) as [Hbest Hp].
  assert (Hc : py_index (classifier_names cs) clfi = Ok cname)
    by (unfold py_index; now rewrite Hcname).
  unfold score_classifier. unfold py_index at 1. rewrite Hfit. cbn [bind].
  rewrite Nat.eqb_refl, Hrow, Hbest. cbn [bind]. rewrite Hty.
  unfold contribute, process_index_svm. rewrite Hname, Hp, Hc. cbn [bind].
  eexists. split; [reflexivity |]. unfold cast. cbn.
  unfold svm_prob, svm_weight. now rewrite (mul_comm 10 p).
Qed.

(** The turn of a kNN model that fits: the arg-max class, with
    [clamp(0,1, 2*first_run/k - 0.5) * clamp(0,1, 2.5 - 3*d)]. *)
Lemma knn_turn cs dbg output clfi clf acc best p k d rest neighbors_indices :
  fits cs output clfi ->
  clf_type clf = KNeighborsClassifier ->
  predicts output clf best p ->
  known cs clfi best ->
  py_index_opt (class_stats cs) best = Ok {| embeddings := k |} ->
  k <> 0%Z ->
  kneighbors clf output k = Ok (d :: rest, neighbors_indices) ->
  Forall (fun i => i < List.length (_y clf)) neighbors_indices ->
  exists acc',
    score_classifier fmt cs dbg output clfi clf acc = Ok acc'
    /\ cast (Some (best,
                   knn_weight (first_run best (neighbor_classes (_y clf) neighbors_indices))
                     k d)) acc acc'.
Proof.
  intros Hfit Hty (row & Hrow & Hmax) [[name Hname] [cname Hcname]]
    Hk Hnz Hn Hy.
  destruct (arg_max_is_argmax row best p Hmax) as [Hbest Hp].
  unfold score_classifier, py_index. rewrite Hfit. cbn [bind].
  rewrite Nat.eqb_refl, Hrow, Hbest. cbn [bind]. rewrite Hty.
  assert (Hc : py_index (classifier_names cs) clfi = Ok cname)
    by (unfold py_index; now rewrite Hcname).
  unfold contribute, process_index_knn. rewrite Hname, Hk, Hc. cbn [bind embeddings].
  rewrite Hn. cbn [bind py_index nth_error].
  rewrite (first_cnt_loop_spec _ best _ Hy 0). cbn [bind Z.add].
  unfold knn_prob. destruct (k =? 0)%Z eqn:Hz; [apply Z.eqb_eq in Hz; congruence |].
  cbn [bind].
  eexists. split; [reflexivity |]. unfold cast. cbn.
  unfold knn_weight. now rewrite (mul_comm 3 d).
Qed.

(** A turn of the loop does what the step-by-step description says. *)
Lemma score_classifier_turn cs dbg output clfi clf v acc :
  turn cs output clfi clf v ->
  exists acc',
    score_classifier fmt cs dbg output clfi clf acc = Ok acc' /\ cast v acc acc'.
Proof.
  intros [size Hsize Hne | Hfit Hrej | name x row Hfit Hty Hrow
          | best p Hfit Hty Hp Hk | best p k d rest idxs Hfit Hty Hp Hk Hst Hnz Hn Hy].
  - exists acc. split; [| apply cast_nothing].
    apply (score_classifier_mismatch fmt cs dbg output clfi clf size acc Hsize Hne).
  - exists acc. split; [| apply cast_nothing].
    unfold score_classifier, py_index. rewrite Hfit. cbn [bind].
    now rewrite Nat.eqb_refl, Hrej.
  - exists acc. split; [| apply cast_nothing].
    unfold score_classifier, py_index. rewrite Hfit. cbn [bind].
    rewrite Nat.eqb_refl, Hrow. cbn [argmax bind]. now rewrite Hty.
  - now apply svm_turn.
  - now apply (knn_turn cs dbg output clfi clf acc best p k d rest idxs).
Qed.

(** *** The loop *)

Lemma contributions_app vs ws :
  contributions (vs ++ ws) = contributions vs ++ contributions ws.
Proof.
  induction vs as [| [v |] vs IH]; cbn; [reflexivity | now rewrite IH | exact IH].
Qed.

Lemma score_loop_turns cs dbg output clfs :
  forall clfi vs acc,
    turns cs output clfi clfs vs ->
    exists acc',
      score_loop fmt cs dbg output clfi clfs acc = Ok acc'
      /\ detected_indices acc' = detected_indices acc ++ map fst (contributions vs)
      /\ probs acc' = probs acc ++ map snd (contributions vs).
Proof.
  induction clfs as [| clf clfs IH]; intros clfi vs acc Ht.
  - inversion Ht; subst. exists acc. cbn. now rewrite !app_nil_r.
  - inversion Ht as [| k c l v ws Hv Hws]; subst.
    destruct (score_classifier_turn cs dbg output clfi clf v acc Hv)
      as (acc1 & H1 & Hi1 & Hp1).
    destruct (IH (S clfi) ws acc1 Hws) as (acc' & H2 & Hi2 & Hp2).
    exists acc'. cbn [score_loop]. rewrite H1. cbn [bind].
    split; [exact H2 |].
    rewrite Hi2, Hp2, Hi1, Hp1.
    change (v :: ws) with ([v] ++ ws).
    rewrite contributions_app, !map_app, !app_assoc. split; reflexivity.
Qed.

(** Turns of classifiers that stand one after the other. *)
Lemma turns_app cs output l1 l2 v2 :
  forall k v1,
    turns cs output k l1 v1 ->
    turns cs output (k + List.length l1) l2 v2 ->
    turns cs output k (l1 ++ l2) (v1 ++ v2).
Proof.
  induction l1 as [| c l1 IH]; intros k v1 H1 H2.
  - inversion H1; subst. cbn in *. now rewrite Nat.add_0_r in H2.
  - inversion H1 as [| k' c' l v ws Hv Hws]; subst. cbn [app]. constructor; [exact Hv |].
    apply IH; [exact Hws |]. cbn [List.length] in H2. now rewrite <- plus_n_Sm in H2.
Qed.

(** *** The verdict *)

(** What [process_output] makes of the turns: a verdict, detected exactly
    if there is a vote and the votes are unanimous, with the mean of the
    weights as confidence. *)
Lemma verdict_of_turns self output bbox vs :
  turns (self_classifiers self) output 0 (classifiers (self_classifiers self)) vs ->
  exists ov lbl conf,
    process_output fmt self output bbox = Ok (ov, lbl, conf)
    /\ (thin ov = false <-> contributions vs <> [] /\ unanimous (contributions vs))
    /\ conf = (if thin ov then 0%float else arithmetic_mean (map snd (contributions vs))).
Proof.
  intros Ht.
  destruct (score_loop_turns (self_classifiers self) (debug self) output _ 0 vs start Ht)
    as (acc & Hloop & Hidx & Hps).
  cbn [start detected_indices probs app] in Hidx, Hps.
  pose proof (score_loop_recorded fmt _ _ _ _ _ _ _ (start_recorded (debug self)) Hloop)
    as (Hlen & Hrule & Hflag & Hlab).
  assert (Hv : verdict acc = true <->
               contributions vs <> [] /\ unanimous (contributions vs)).
  { unfold verdict, unanimous.
    rewrite andb_true_iff, one_distinct, Hflag, (all_positive _ Hrule), Hidx, Hps.
    destruct (contributions vs); cbn; [| intuition congruence].
    intuition congruence. }
  unfold process_output. rewrite Hloop. cbn [bind].
  assert (Hstr : exists str,
             label_text (debug self) (verdict acc) (with_summary fmt (debug self) acc)
             = Ok str).
  { unfold label_text, with_summary. destruct (debug self) eqn:Hd.
    - destruct (verdict acc);
        match goal with |- exists _, match ?l with _ => _ end = _ => destruct l end;
        eauto.
    - destruct (verdict acc) eqn:Hva; [| eauto].
      assert (Hne : probs acc <> []).
      { rewrite Hps. destruct (proj1 Hv eq_refl) as [Hc _].
        destruct (contributions vs); [congruence | discriminate]. }
      specialize (Hlab eq_refl Hne). destruct (label_strings acc); [congruence |].
      cbn. eauto. }
  destruct Hstr as [str Hstr]. rewrite Hstr. cbn [bind].
  do 3 eexists. split; [reflexivity |]. cbn [thin]. split.
  - rewrite negb_false_iff. exact Hv.
  - unfold fused. destruct (verdict acc) eqn:Hva; cbn [negb]; [| reflexivity].
    rewrite <- Hps. apply mean_of_rule_values; [exact Hrule |].
    rewrite Hps. destruct (proj1 Hv eq_refl) as [Hc _].
    destruct (contributions vs); [congruence | discriminate].
Qed.

(** C1: the classifiers of the ensemble have their turns, each voting for
    its arg-max class with the weight of its kind or being left out, and
    there is at least one vote.  Then [process_output] returns a verdict; it
    is detected (a thick box) exactly if all votes are for one class index
    and every weight is greater than 0; the confidence is the arithmetic
    mean of the weights if detected and 0 otherwise.  In particular votes
    for two class indices give not detected and confidence 0, whatever the
    weights. *)
Theorem fusion_of_votes self output bbox vs :
  turns (self_classifiers self) output 0 (classifiers (self_classifiers self)) vs ->
  contributions vs <> [] ->
  exists ov lbl conf,
    process_output fmt self output bbox = Ok (ov, lbl, conf)
    /\ (thin ov = false <->
        same_class (map fst (contributions vs))
        /\ Forall positive (map snd (contributions vs)))
    /\ conf = (if thin ov then 0%float else arithmetic_mean (map snd (contributions vs)))
    /\ (forall i p j q,
          In (i, p) (contributions vs) -> In (j, q) (contributions vs) -> i <> j ->
          thin ov = true /\ conf = 0%float).
Proof.
  intros Ht Hne.
  destruct (verdict_of_turns self output bbox vs Ht) as (ov & lbl & conf & Hout & Hv & Hc).
  exists ov, lbl, conf. split; [exact Hout |].
  assert (Hd : thin ov = false <->
               same_class (map fst (contributions vs))
               /\ Forall positive (map snd (contributions vs))).
  { rewrite Hv. unfold unanimous. tauto. }
  split; [exact Hd |]. split; [exact Hc |].
  intros i p j q Hi Hj Hij.
  assert (Hthin : thin ov = true).
  { destruct (thin ov) eqn:Hth; [reflexivity |].
    destruct (proj1 Hd eq_refl) as [Hsame _]. exfalso. apply Hij.
    apply Hsame.
    - change i with (fst (i, p)). now apply in_map.
    - change j with (fst (j, q)). now apply in_map. }
  split; [exact Hthin |]. now rewrite Hthin in Hc.
Qed.

(** C9, as the code has it: classifier [i] expects embeddings of another
    length than the one given, and the classifiers before it and after it
    have their turns with the outcomes [earlier] and [later], each a vote or
    none.  Then the turn of classifier [i] records nothing and raises
    nothing, and [process_output] returns a verdict, which is the fusion of
    the votes of the others: detected exactly if there is a vote and the
    votes are unanimous, with the mean of their weights as confidence if
    detected and 0 otherwise; it is the verdict of the ensemble without
    classifier [i]. *)
Theorem mismatch_skipped_others_fused self output bbox i clf size earlier later :
  nth_error (classifiers (self_classifiers self)) i = Some clf ->
  nth_error (embedding_sizes (self_classifiers self)) i = Some size ->
  List.length output <> size ->
  turns (self_classifiers self) output 0
    (firstn i (classifiers (self_classifiers self))) earlier ->
  turns (self_classifiers self) output (S i)
    (skipn (S i) (classifiers (self_classifiers self))) later ->
  (forall acc,
     score_classifier fmt (self_classifiers self) (debug self) output i clf acc = Ok acc)
  /\ exists ov lbl conf,
       process_output fmt self output bbox = Ok (ov, lbl, conf)
       /\ process_output fmt (without_classifier i self) output bbox
          = Ok (ov, lbl, conf)
       /\ (thin ov = false <->
           contributions (earlier ++ later) <> []
           /\ unanimous (contributions (earlier ++ later)))
       /\ conf = (if thin ov then 0%float
                  else arithmetic_mean (map snd (contributions (earlier ++ later)))).
Proof.
  intros Hclf Hsize Hne Hbefore Hafter.
  set (cs := self_classifiers self) in *.
  assert (Hidle : forall acc,
             score_classifier fmt cs (debug self) output i clf acc = Ok acc).
  { intros acc.
    apply (score_classifier_mismatch fmt cs (debug self) output i clf size acc Hsize Hne). }
  split; [exact Hidle |].
  assert (Hall : turns cs output 0 (classifiers cs) (earlier ++ None :: later)).
  { destruct (nth_error_split _ _ Hclf) as (pre & post & Hsplit & Hlen).
    rewrite Hsplit in Hbefore, Hafter |- *. subst i.
    rewrite firstn_app, firstn_all, Nat.sub_diag, firstn_0, app_nil_r in Hbefore.
    rewrite skipn_app, skipn_all2 in Hafter by lia.
    replace (S (List.length pre) - List.length pre) with 1 in Hafter by lia.
    cbn [app skipn] in Hafter.
    apply turns_app; [exact Hbefore |]. cbn [Nat.add].
    constructor; [apply (left_out_mismatch cs output (List.length pre) clf Hsize Hne) |].
    exact Hafter. }
  destruct (verdict_of_turns self output bbox _ Hall) as (ov & lbl & conf & Hout & Hd & Hc).
  assert (Hcon : contributions (earlier ++ None :: later) = contributions (earlier ++ later)).
  { rewrite !contributions_app. reflexivity. }
  rewrite Hcon in Hd, Hc.
  exists ov, lbl, conf. split; [exact Hout |].
  split; [| split; assumption].
  rewrite <- Hout. symmetry.
  apply (idle_turn_removed fmt self output bbox i clf Hclf Hidle).
Qed.

End Votes.

(** *** Sample ensembles *)

(** The entries of a row that is written out, one after the other. *)
Ltac each_entry j Hj :=
  repeat (destruct j as [| j];
          [cbn in Hj; injection Hj as <-; first [reflexivity | lia] |]);
  cbn in Hj; destruct j; discriminate Hj.

(** [best] and [p] are the arg-max class and its probability in [row]:
    the goals are closed by evaluation. *)
Ltac greatest row :=
  exists row; split; [reflexivity |];
  split; [reflexivity |];
  let j := fresh "j" in
  let q := fresh "q" in
  let Hj := fresh "Hj" in
  let Hlt := fresh "Hlt" in
  split; [intros j q Hj | intros j q Hj Hlt]; each_entry j Hj.

(** The turn of [knn] on [embedding], in an ensemble that names class 0
    and counts ten embeddings for it. *)
Ltac knn_votes :=
  apply (@votes_knn _ embedding _ knn 0 0.7%float 10%Z 0.4%float farther nearest);
  [ reflexivity | reflexivity
  | greatest [0.7; 0.3]%float
  | split; [exists "alice"%string | exists "kNN"%string]; reflexivity
  | reflexivity | discriminate | reflexivity | repeat constructor ].

(** The turn of an SVM that gives [row], of which [p] is the greatest entry,
    at index [best]. *)
Ltac svm_votes row best p name :=
  apply (@votes_svm _ embedding _ (svm row) best p);
  [ reflexivity | reflexivity
  | greatest row
  | split; [exists name | exists "SVM"%string]; reflexivity ].

Lemma fusion_of_votes_witness :
  process_output plain agreeing embedding box
  = Ok (alice_overlay, Some alice_label, 0.69999999999999996%float)
  /\ arithmetic_mean (map snd (contributions agreeing_votes)) = 0.69999999999999996%float
  /\ exists ov lbl conf,
       process_output plain agreeing embedding box = Ok (ov, lbl, conf)
       /\ (thin ov = false <->
           same_class (map fst (contributions agreeing_votes))
           /\ Forall positive (map snd (contributions agreeing_votes)))
       /\ conf = (if thin ov then 0%float
                  else arithmetic_mean (map snd (contributions agreeing_votes)))
       /\ (forall i p j q,
             In (i, p) (contributions agreeing_votes) ->
             In (j, q) (contributions agreeing_votes) -> i <> j ->
             thin ov = true /\ conf = 0%float).
Proof.
  split; [vm_compute; reflexivity |]. split; [vm_compute; reflexivity |].
  apply (fusion_of_votes plain agreeing embedding box agreeing_votes).
  - change agreeing_votes
      with [Some (0, knn_weight (first_run 0 (neighbor_classes (_y knn) nearest))
                       10 0.4%float);
            Some (0, svm_weight 0.05%float)].
    constructor; [knn_votes | constructor; [| constructor]].
    svm_votes [0.05; 0.01]%float 0 0.05%float "alice"%string.
  - discriminate.
Defined.

(** Two SVMs that are both certain, of different classes: their votes have
    weight 1 each, and the verdict is not detected, with confidence 0 and no
    label. *)
Example split_votes_not_detected :
  turns (self_classifiers split_vote) embedding 0
    (classifiers (self_classifiers split_vote)) split_votes
  /\ exists ov,
       process_output plain split_vote embedding box = Ok (ov, None, 0%float)
       /\ thin ov = true.
Proof.
  split.
  - change split_votes with [Some (0, svm_weight 1); Some (1, svm_weight 1)].
    constructor; [| constructor; [| constructor]].
    + svm_votes [1; 0]%float 0 1%float "alice"%string.
    + svm_votes [0; 1]%float 1 1%float "bob"%string.
  - eexists. split; [vm_compute; reflexivity | reflexivity].
Qed.

(** The kNN model and an SVM vote for the same class, the SVM with weight
    0: not detected, confidence 0. *)
Example zero_weight_not_detected :
  turns (self_classifiers one_unsure) embedding 0
    (classifiers (self_classifiers one_unsure)) unsure_votes
  /\ exists ov,
       process_output plain one_unsure embedding box = Ok (ov, None, 0%float)
       /\ thin ov = true.
Proof.
  split.
  - change unsure_votes
      with [Some (0, knn_weight (first_run 0 (neighbor_classes (_y knn) nearest))
                       10 0.4%float);
            Some (0, svm_weight 0)].
    constructor; [knn_votes | constructor; [| constructor]].
    svm_votes [0; 0]%float 0 0%float "alice"%string.
  - eexists. split; [vm_compute; reflexivity | reflexivity].
Qed.

Lemma mismatch_skipped_others_fused_witness :
  process_output plain with_stranger embedding box
  = Ok (alice_overlay, Some alice_label, 0.69999999999999996%float)
  /\ (forall acc,
        score_classifier plain (self_classifiers with_stranger) (debug with_stranger)
          embedding 1 svm3 acc = Ok acc)
  /\ exists ov lbl conf,
       process_output plain with_stranger embedding box = Ok (ov, lbl, conf)
       /\ process_output plain (without_classifier 1 with_stranger) embedding box
          = Ok (ov, lbl, conf)
       /\ (thin ov = false <->
           contributions (knn_vote ++ svm_vote) <> []
           /\ unanimous (contributions (knn_vote ++ svm_vote)))
       /\ conf = (if thin ov then 0%float
                  else arithmetic_mean (map snd (contributions (knn_vote ++ svm_vote)))).
Proof.
  split; [vm_compute; reflexivity |].
  apply (mismatch_skipped_others_fused plain with_stranger embedding box 1 svm3 3
           knn_vote svm_vote).
  - reflexivity.
  - reflexivity.
  - discriminate.
  - change knn_vote
      with [Some (0, knn_weight (first_run 0 (neighbor_classes (_y knn) nearest))
                       10 0.4%float)].
    constructor; [knn_votes | constructor].
  - change svm_vote with [Some (0, svm_weight 0.05%float)].
    constructor; [| constructor].
    svm_votes [0.05; 0.01]%float 0 0.05%float "alice"%string.
Defined.

(** C9, the counterexample: the first classifier expects three numbers, the
    embedding has two, and the second classifier fits but raises.  The
    mismatch is passed over, and yet [process_output] gives no verdict: the
    exception of the second classifier is its outcome. *)
Lemma mismatch_then_error_no_verdict :
  nth_error (embedding_sizes (self_classifiers stranger_then_regressor)) 0 = Some 3
  /\ nth_error (embedding_sizes (self_classifiers stranger_then_small_knn)) 0 = Some 3
  /\ List.length embedding = 2
  /\ process_output plain stranger_then_regressor embedding box = Raise AttributeError
  /\ process_output plain stranger_then_small_knn embedding box = Raise ValueError.
Proof. repeat split. Qed.

End FusionProps.

(** * The notifier and the listener *)

Module NotifyPrintProps.
Import NotifyPrint.

Lemma bar_length n : String.length (bar n) = n.
Proof. induction n; cbn; auto. Qed.

Lemma max_from_spec ns :
  forall n,
    n <= max_from n ns
    /\ Forall (fun k => k <= max_from n ns) ns
    /\ In (max_from n ns) (n :: ns).
Proof.
  unfold max_from. induction ns as [| k ns IH]; intros n; cbn [fold_left].
  - repeat split; auto. now left.
  - destruct (IH (Nat.max n k)) as (H1 & H2 & H3).
    split; [lia |]. split; [constructor; [lia | exact H2] |].
    destruct H3 as [H3 | H3]; [| now right; right].
    rewrite <- H3.
    destruct (Nat.max_spec n k) as [[_ E] | [_ E]]; rewrite E.
    + right. now left.
    + now left.
Qed.

(** X17: [notify] prints three strings: a bar of [=], the lines of the
    message joined by CR LF, and the same bar again.  The message has
    between one and four lines, the first of which names the person; the
    bar is exactly as long as the longest line. *)
Theorem notify_frames_message name position company image :
  let msgs := msg_strings name position company image in
  exists sl,
    notify name position company image = [bar sl; String.concat crlf msgs; bar sl]
    /\ String.length (bar sl) = sl
    /\ Forall (fun s => String.length s <= sl) msgs
    /\ Exists (fun s => String.length s = sl) msgs
    /\ hd_error msgs = Some (name ++ " has been detected")%string
    /\ 1 <= List.length msgs <= 4.
Proof.
  intros msgs. unfold notify. fold msgs.
  assert (Hhd : hd_error msgs = Some (name ++ " has been detected")%string)
    by reflexivity.
  assert (Hlen : 1 <= List.length msgs <= 4).
  { subst msgs. unfold msg_strings. rewrite !length_app.
    destruct position as [p |]; [destruct (String.eqb p "") |];
      (destruct company as [c |]; [destruct (String.eqb c "") |]);
      destruct image; cbn; lia. }
  destruct msgs as [| m msgs']; [discriminate |]. cbn [map].
  destruct (max_from_spec (map String.length msgs') (String.length m)) as (H1 & H2 & H3).
  eexists. split; [reflexivity |]. split; [apply bar_length |].
  split; [| split; [| split; assumption]].
  - constructor; [exact H1 |]. rewrite Forall_map in H2. exact H2.
  - change (String.length m :: map String.length msgs')
      with (map String.length (m :: msgs')) in H3.
    apply in_map_iff in H3. destruct H3 as (s & Hs & Hin).
    apply Exists_exists. eauto.
Qed.

End NotifyPrintProps.

Module ListenerProps.
Import Listener MoreSpec MoreSamples.

(** X18: [listen] answers every request it does not hand on with one error
    reply, in the order of arrival, and returns the first request that could
    be unpickled and whose command is not ["error"]; it sends no reply for
    the request it returns, so that after the caller's one [result] there is
    exactly one reply per request received.  While such a request does not
    arrive, every request has got its error reply. *)
Theorem listen_one_reply_per_request (Data : Type) (incoming : list (Request Data)) :
  match listen incoming with
  | (sent, Some (command, data, rest)) =>
      exists pre r,
        incoming = pre ++ r :: rest
        /\ r = Ok (command, data)
        /\ command <> "error"%string
        /\ Forall2 (fun q reply => exists e, receive q = inl e /\ reply = Some e) pre sent
        /\ forall err,
             List.length (sent ++ result_ err) = List.length (pre ++ [r])
  | (sent, None) =>
      Forall2 (fun q reply => exists e, receive q = inl e /\ reply = Some e) incoming sent
  end.
Proof.
  induction incoming as [| q incoming IH]; cbn [listen].
  - constructor.
  - destruct (receive q) as [e | [command data]] eqn:Hq.
    + destruct (listen incoming) as [sent [[[command data] rest] |]].
      * destruct IH as (pre & r & -> & Hr & Hc & Hall & Hlen).
        exists (q :: pre), r. split; [reflexivity |]. split; [exact Hr |].
        split; [exact Hc |]. split; [constructor; eauto |].
        intros err. cbn. f_equal. apply Hlen.
      * constructor; eauto.
    + exists [], q. unfold receive in Hq.
      destruct q as [[c d] | e]; [| discriminate].
      destruct (String.eqb c "error") eqn:Hc; [discriminate |].
      injection Hq as -> ->.
      split; [reflexivity |]. split; [reflexivity |].
      split; [now apply String.eqb_neq |]. split; [constructor | reflexivity].
Qed.

(** The test command and a broken request are answered, the reload command
    is returned. *)
Example listen_requests :
  listen requests
  = ([Some (LoadFailure TypeError); Some TestError],
     Some ("reload_classifiers"%string, 7, [])).
Proof. reflexivity. Qed.

End ListenerProps.
